(** * vpp6: probabilistic sizing of a battery portfolio for the FCR market

    Shallow embedding of the simulation core of [vpp6.py] and the
    properties stated about it.

    Conventions of the embedding.
    - NumPy [float64] values and Python numbers are exact rationals ([Q]):
      rounding, overflow, infinities and NaN are outside the model.  Where
      a property depends on rounding, the code is embedded a second time
      with every arithmetic operation rounded to binary64
      ([round_binary64], section "binary64 arithmetic").
    - A one-dimensional array is a [list]; a boolean mask is a [list bool].
    - A Python exception is a value of [exn]; a computation that can raise
      returns a [result].
    - The ambient generator [np.random] is an explicit state of a type [G]
      with the two elementary draws of the [RandomState] class; code that
      draws is written in the monad [M], which threads the generator and
      propagates exceptions.
    - [print] and the plotting functions have no effect on the values
      computed and are left out. *)

From Stdlib Require Import PrimFloat FloatOps SpecFloat.
From Stdlib Require Import QArith Qround Qpower Lqa ZArith List Bool Lia.
Import ListNotations.
Open Scope Q_scope.

(** ** Python and NumPy primitives *)

Inductive exn : Type :=
| ZeroDivisionError
| IndexError
| ValueError.

Inductive result (A : Type) : Type :=
| Ok (a : A)
| Raise (e : exn).

Arguments Ok {A} a.
Arguments Raise {A} e.

Definition result_bind {A B : Type} (x : result A) (k : A -> result B)
  : result B :=
  match x with
  | Ok a => k a
  | Raise e => Raise e
  end.

Notation "'try' x <- e ;; k" := (result_bind e (fun x => k))
  (at level 61, x name, e at next level, right associativity).

(** [a / b] on Python numbers. *)
Definition py_div (a b : Q) : result Q :=
  if Qeq_bool b 0 then Raise ZeroDivisionError else Ok (a / b).

(** Python's [bool] is a subclass of [int]: [True == 1], [False == 0]. *)
Definition py_number_of_bool (b : bool) : Q := if b then 1 else 0.

Definition Qlt_bool (x y : Q) : bool := negb (Qle_bool y x).

Definition Qmaximum (x y : Q) : Q := if Qle_bool y x then x else y.

Fixpoint zip_with {A B C : Type} (f : A -> B -> C) (xs : list A)
  (ys : list B) : list C :=
  match xs, ys with
  | x :: xs', y :: ys' => f x y :: zip_with f xs' ys'
  | _, _ => []
  end.

(** [np.zeros_like(a)] *)
Definition np_zeros_like (a : list Q) : list Q := map (fun _ => 0) a.

(** [np.clip(a, lo, None)] *)
Definition np_clip_min (a : list Q) (lo : Q) : list Q :=
  map (fun x => Qmaximum x lo) a.

(** [~mask] *)
Definition np_invert (mask : list bool) : list bool := map negb mask.

(** [a[mask] = v], with NumPy's check that a boolean index has the length
    of the indexed axis. *)
Definition np_mask_assign (a : list Q) (mask : list bool) (v : Q)
  : result (list Q) :=
  if Nat.eqb (length mask) (length a)
  then Ok (zip_with (fun x (b : bool) => if b then v else x) a mask)
  else Raise IndexError.

(** [a[mask]], under the same check. *)
Fixpoint select (a : list Q) (mask : list bool) : list Q :=
  match a, mask with
  | x :: a', b :: mask' => if b then x :: select a' mask' else select a' mask'
  | _, _ => []
  end.

Definition np_mask_select (a : list Q) (mask : list bool)
  : result (list Q) :=
  if Nat.eqb (length mask) (length a) then Ok (select a mask)
  else Raise IndexError.

(** Elementwise operators between arrays of one length, and between an
    array and a scalar.  A length mismatch is NumPy's broadcasting error
    (the broadcast of a length-one array does not occur in [vpp6.py]). *)
Definition np_add (a b : list Q) : result (list Q) :=
  if Nat.eqb (length a) (length b) then Ok (zip_with Qplus a b)
  else Raise ValueError.

Definition np_ge (a b : list Q) : result (list bool) :=
  if Nat.eqb (length a) (length b)
  then Ok (zip_with (fun x y => Qle_bool y x) a b)
  else Raise ValueError.

Definition np_and (a b : list bool) : result (list bool) :=
  if Nat.eqb (length a) (length b) then Ok (zip_with andb a b)
  else Raise ValueError.

Definition np_scale (a : list Q) (k : Q) : list Q :=
  map (fun x => x * k) a.

Definition np_lt_scalar (a : list Q) (k : Q) : list bool :=
  map (fun x => Qlt_bool x k) a.

(** [np.sum] of a float array; the sum of the empty array is [0]. *)
Definition np_sum (a : list Q) : Q := fold_left Qplus a 0.

(** [np.sum] of a boolean array counts its true entries. *)
Definition np_count (mask : list bool) : Z :=
  Z.of_nat (length (filter (fun b : bool => b) mask)).

(** ** The random generator *)

(** One standard normal variate, and one uniform variate of [[0, 1)]. *)
Class RandomState (G : Type) : Type := {
  standard_normal : G -> Q * G;
  random_sample : G -> Q * G
}.

(** ** Module constants *)

(** The literal constants of lines 9-33. *)
Record Settings : Type := {
  ENERGY_HOURS : Q;
  REQUIRED_POWER : Q;
  N_SLOTS_YEAR : Z;
  POWER_MEAN : Q;
  POWER_STD : Q;
  SOC_MEAN : Q;
  SOC_STD : Q;
  P_AVAILABLE_FCR : Q;
  SOC_DEGRADATION_PER_USE : Q;
  TARGET_NET_BALANCE : Q;
  MIN_SUCCESS_RATE : Q
}.

(** The module namespace once the top level has run: the literals and the
    recharge rate derived from them on line 30. *)
Record Globals : Type := {
  settings :> Settings;
  SOC_RECHARGE_RATE : Q
}.

(** Running the module's top-level assignments. *)
Definition exec_module (s : Settings) : result Globals :=
  try rate <- py_div (SOC_DEGRADATION_PER_USE s * P_AVAILABLE_FCR s
                      + TARGET_NET_BALANCE s)
                     (1 - P_AVAILABLE_FCR s) ;;
  Ok {| settings := s; SOC_RECHARGE_RATE := rate |}.

Definition vpp6_settings : Settings := {|
  ENERGY_HOURS := 4;
  REQUIRED_POWER := 10000;
  N_SLOTS_YEAR := 2190;
  POWER_MEAN := 100;
  POWER_STD := 20;
  SOC_MEAN := 600;
  SOC_STD := 100;
  P_AVAILABLE_FCR := 70 # 100;
  SOC_DEGRADATION_PER_USE := 2 # 1000;
  TARGET_NET_BALANCE := 5 # 10000;
  MIN_SUCCESS_RATE := 95 # 100
|}.

Definition vpp6 : Globals := {|
  settings := vpp6_settings;
  SOC_RECHARGE_RATE :=
    ((2 # 1000) * (70 # 100) + (5 # 10000)) / (1 - (70 # 100))
|}.

(** ** Computations that draw from the generator and may raise *)

Definition M (G A : Type) : Type := G -> result (A * G).

Definition ret {G A : Type} (a : A) : M G A := fun r => Ok (a, r).

Definition bind {G A B : Type} (m : M G A) (k : A -> M G B) : M G B :=
  fun r =>
    match m r with
    | Ok (a, r') => k a r'
    | Raise e => Raise e
    end.

Definition lift {G A : Type} (x : result A) : M G A :=
  fun r =>
    match x with
    | Ok a => Ok (a, r)
    | Raise e => Raise e
    end.

Notation "x <- e ;; k" := (bind e (fun x => k))
  (at level 61, e at next level, right associativity).
Notation "' pat <- e ;; k" := (bind e (fun x => match x with pat => k end))
  (at level 61, pat pattern, e at next level, right associativity).

(** [for _ in range(n): s = body(s)] *)
Fixpoint for_range {G St : Type} (n : nat) (body : St -> M G St) (s : St)
  : M G St :=
  match n with
  | O => ret s
  | S n' => s' <- body s ;; for_range n' body s'
  end.

(** [size] successive draws. *)
Fixpoint draws {G : Type} (draw : G -> Q * G) (size : nat) : M G (list Q) :=
  match size with
  | O => ret []
  | S size' =>
      fun r =>
        let (x, r') := draw r in
        (xs <- draws draw size' ;; ret (x :: xs)) r'
  end.

(** [np.random.normal(loc, scale, size)]: [loc + scale * z] for each
    standard variate [z]; a negative [scale] or [size] is rejected. *)
Definition np_random_normal {G : Type} `{RandomState G} (loc scale : Q)
  (size : Z) : M G (list Q) :=
  if Qlt_bool scale 0 then lift (Raise ValueError)
  else if (size <? 0)%Z then lift (Raise ValueError)
  else zs <- draws standard_normal (Z.to_nat size) ;;
       ret (map (fun z => loc + scale * z) zs).

(** [np.random.random(size)] *)
Definition np_random_random {G : Type} `{RandomState G} (size : Z)
  : M G (list Q) :=
  if (size <? 0)%Z then lift (Raise ValueError)
  else draws random_sample (Z.to_nat size).

(** [range(start, stop, step)] *)
Definition py_range (start stop step : Z) : result (list Z) :=
  if (step =? 0)%Z then Raise ValueError
  else
    let len :=
      if (0 <? step)%Z
      then (if (start <? stop)%Z then (stop - start - 1) / step + 1 else 0)%Z
      else (if (stop <? start)%Z then (start - stop - 1) / (- step) + 1
            else 0)%Z in
    Ok (map (fun i => (start + Z.of_nat i * step)%Z) (seq 0 (Z.to_nat len))).

(** ** The simulation *)

(** The diagnostic histories of [simulate_year_with_tracking]. *)
Record History : Type := {
  soc_history : list (list Q);
  fcr_power_history : list Q;
  success_history : list bool;
  available_history : list Z;
  soc_ok_history : list Z
}.

(** The dictionary it returns. *)
Record YearResult : Type := {
  history :> History;
  success_rate : Q
}.

Section Simulation.

Context {G : Type} `{RandomState G}.
Variable g : Globals.

Definition update_soc (socs powers : list Q) (available_for_fcr : list bool)
  : result (list Q) :=
  let delta_soc := np_zeros_like socs in
  try delta_soc <- np_mask_assign delta_soc available_for_fcr
                     (- SOC_DEGRADATION_PER_USE g * SOC_MEAN g) ;;
  try delta_soc <- np_mask_assign delta_soc (np_invert available_for_fcr)
                     (SOC_RECHARGE_RATE g * SOC_MEAN g) ;;
  try socs <- np_add socs delta_soc ;;
  Ok (np_clip_min socs 0).

Definition simulate_fcr_slot (socs : list Q)
  : M G (bool * list bool * list bool * list Q) :=
  let n_assets := Z.of_nat (length socs) in
  powers <- np_random_normal (POWER_MEAN g) (POWER_STD g) n_assets ;;
  let powers := np_clip_min powers 20 in
  u <- np_random_random n_assets ;;
  let available_for_fcr := np_lt_scalar u (P_AVAILABLE_FCR g) in
  has_enough_soc <- lift (np_ge socs (np_scale powers (ENERGY_HOURS g))) ;;
  can_provide_fcr <- lift (np_and available_for_fcr has_enough_soc) ;;
  delivering <- lift (np_mask_select powers can_provide_fcr) ;;
  let available_fcr_power := np_sum delivering in
  let success := Qle_bool (REQUIRED_POWER g) available_fcr_power in
  ret (success, can_provide_fcr, available_for_fcr, powers).

(** One iteration of the loop of [simulate_year_with_tracking], on the
    variables it updates: [socs], [success_count] and the histories. *)
Definition tracking_slot (st : list Q * Z * History)
  : M G (list Q * Z * History) :=
  let '(socs, success_count, h) := st in
  ' (success, can_provide, available, powers) <- simulate_fcr_slot socs ;;
  let success_count :=
    if success : bool then (success_count + 1)%Z else success_count in
  socs <- lift (update_soc socs powers can_provide) ;;
  delivering <- lift (np_mask_select powers can_provide) ;;
  soc_ok <- lift (np_ge socs (np_scale powers (ENERGY_HOURS g))) ;;
  ret (socs, success_count,
       {| soc_history := soc_history h ++ [socs];
          fcr_power_history := fcr_power_history h ++ [np_sum delivering];
          success_history := success_history h ++ [success];
          available_history := available_history h ++ [np_count available];
          soc_ok_history := soc_ok_history h ++ [np_count soc_ok] |}).

Definition simulate_year_with_tracking (n_assets : Z) : M G YearResult :=
  socs <- np_random_normal (SOC_MEAN g) (SOC_STD g) n_assets ;;
  let socs := np_clip_min socs 0 in
  let success_count := 0%Z in
  let h := {| soc_history := [socs]; fcr_power_history := [];
              success_history := []; available_history := [];
              soc_ok_history := [] |} in
  ' (socs, success_count, h) <-
      for_range (Z.to_nat (N_SLOTS_YEAR g)) tracking_slot
        (socs, success_count, h) ;;
  rate <- lift (py_div (inject_Z success_count)
                       (inject_Z (N_SLOTS_YEAR g))) ;;
  ret {| history := h; success_rate := rate |}.

(** One iteration of the loop of [simulate_year]. *)
Definition year_slot (st : list Q * Z) : M G (list Q * Z) :=
  let '(socs, success_count) := st in
  ' (success, can_provide, available, powers) <- simulate_fcr_slot socs ;;
  let success_count :=
    if success : bool then (success_count + 1)%Z else success_count in
  socs <- lift (update_soc socs powers can_provide) ;;
  ret (socs, success_count).

Definition simulate_year (n_assets : Z) : M G bool :=
  socs <- np_random_normal (SOC_MEAN g) (SOC_STD g) n_assets ;;
  let socs := np_clip_min socs 0 in
  let success_count := 0%Z in
  ' (socs, success_count) <-
      for_range (Z.to_nat (N_SLOTS_YEAR g)) year_slot
        (socs, success_count) ;;
  rate <- lift (py_div (inject_Z success_count)
                       (inject_Z (N_SLOTS_YEAR g))) ;;
  ret (Qle_bool (MIN_SUCCESS_RATE g) rate).

Definition annual_success_probability (n_assets n_trials : Z) : M G Q :=
  successes <-
    for_range (Z.to_nat n_trials)
      (fun successes : Z =>
         ok <- simulate_year n_assets ;;
         ret (if ok : bool then (successes + 1)%Z else successes))
      0%Z ;;
  lift (py_div (inject_Z successes) (inject_Z n_trials)).

Definition installed_capacity (n_assets : Z) : Q :=
  inject_Z n_assets * POWER_MEAN g.

(** [diagnostic_slot] returns nothing; what remains of it is the draws
    it takes from the generator and the [np.min(socs)] it prints, which
    raises on an empty array. *)
Definition diagnostic_slot (n_assets : Z) : M G unit :=
  socs <- np_random_normal (SOC_MEAN g) (SOC_STD g) n_assets ;;
  let socs := np_clip_min socs 0 in
  powers <- np_random_normal (POWER_MEAN g) (POWER_STD g) n_assets ;;
  let powers := np_clip_min powers 20 in
  _ <- lift (match socs with [] => Raise ValueError | _ => Ok tt end) ;;
  _ <- np_random_random n_assets ;;
  ret tt.

(** The loop of [find_min_assets_annual] over the candidate sizes. *)
Fixpoint scan (confidence_target : Q) (candidates : list Z)
  : M G (option (Z * Q * Q * Q)) :=
  match candidates with
  | [] => ret None
  | n_assets :: rest =>
      prob <- annual_success_probability n_assets 100 ;;
      let capacity := installed_capacity n_assets in
      oversizing <- lift (py_div capacity (REQUIRED_POWER g)) ;;
      if Qle_bool confidence_target prob
      then ret (Some (n_assets, capacity, oversizing, prob))
      else scan confidence_target rest
  end.

Definition find_min_assets_annual (confidence_target : Q)
  (n_min n_max step : Z) : M G (option (Z * Q * Q * Q)) :=
  _ <- diagnostic_slot n_min ;;
  candidates <- lift (py_range n_min (n_max + 1) step) ;;
  scan confidence_target candidates.

End Simulation.

(** ** A scripted generator

    A deterministic generator for concrete runs: the [k]-th draw returns
    the [k]-th entry of the script for its kind of variate. *)

Record Script : Type := {
  cursor : nat;
  normal_at : nat -> Q;
  uniform_at : nat -> Q
}.

Definition advance (s : Script) : Script :=
  {| cursor := S (cursor s); normal_at := normal_at s;
     uniform_at := uniform_at s |}.

#[global] Instance Script_RandomState : RandomState Script := {
  standard_normal s := (normal_at s (cursor s), advance s);
  random_sample s := (uniform_at s (cursor s), advance s)
}.

(** Every asset at its mean power and mean initial charge; every asset
    available up to draw [k], none afterwards. *)
Definition available_until (k : nat) : Script :=
  {| cursor := 0;
     normal_at := fun _ => 0;
     uniform_at := fun i => if Nat.ltb i k then 0 else 9 # 10 |}.

(** One asset at its mean power, always available, whose initial charge
    is drawn two standard deviations below the mean: 400 kWh, exactly the
    energy of one slot. *)
Definition low_charge : Script :=
  {| cursor := 0;
     normal_at := fun i => if Nat.eqb i 0 then - (2) else 0;
     uniform_at := fun _ => 0 |}.

(** The constants of the source with another availability probability. *)
Definition with_availability (p : Q) : Settings := {|
  ENERGY_HOURS := 4;
  REQUIRED_POWER := 10000;
  N_SLOTS_YEAR := 2190;
  POWER_MEAN := 100;
  POWER_STD := 20;
  SOC_MEAN := 600;
  SOC_STD := 100;
  P_AVAILABLE_FCR := p;
  SOC_DEGRADATION_PER_USE := 2 # 1000;
  TARGET_NET_BALANCE := 5 # 10000;
  MIN_SUCCESS_RATE := 95 # 100
|}.

(** ** Specification-side definitions *)

(** The power of the assets of a mask, as a sum over all assets. *)
Fixpoint deliverable_power (powers : list Q) (can_deliver : list bool) : Q :=
  match powers, can_deliver with
  | p :: powers', c :: can' =>
      (if c then p else 0) + deliverable_power powers' can'
  | _, _ => 0
  end.

(** The per-asset change of charge applied by the update rule. *)
Definition soc_delta (g : Globals) (used : bool) : Q :=
  if used then - SOC_DEGRADATION_PER_USE g * SOC_MEAN g
  else SOC_RECHARGE_RATE g * SOC_MEAN g.

(** The charge of one asset after the update rule. *)
Definition updated (g : Globals) (s : Q) (used : bool) : Q :=
  Qmaximum (s + soc_delta g used) 0.

Definition nonneg (x : Q) : Prop := 0 <= x.

(** The result of a computation under a function of its value. *)
Definition on_value {G A B : Type} (f : A -> B) (x : result (A * G))
  : result (B * G) :=
  match x with
  | Ok (a, r) => Ok (f a, r)
  | Raise e => Raise e
  end.

(** The loop variables of [simulate_year] among those of
    [simulate_year_with_tracking]. *)
Definition forget_history (st : list Q * Z * History) : list Q * Z :=
  let '(socs, success_count, _) := st in (socs, success_count).

(** The histories before the first slot. *)
Definition initial_history (socs : list Q) : History :=
  {| soc_history := [socs]; fcr_power_history := [];
     success_history := []; available_history := [];
     soc_ok_history := [] |}.

(** The success flag computed by the loop of [simulate_year] in slot [t]
    (counted from 0), for the initial charges [socs] and generator [r]. *)
Definition year_slot_flag {G : Type} `{RandomState G} (g : Globals)
  (socs : list Q) (r : G) (t : nat) : result bool :=
  match for_range t (year_slot g) (socs, 0%Z) r with
  | Ok (socs_t, _, r_t) =>
      match simulate_fcr_slot g socs_t r_t with
      | Ok (success, _, _, _, _) => Ok success
      | Raise e => Raise e
      end
  | Raise e => Raise e
  end.

(** The fraction of successful slots of a year. *)
Definition success_fraction (g : Globals) (flags : list bool) : Q :=
  inject_Z (np_count flags) / inject_Z (N_SLOTS_YEAR g).

(** [a >= b], elementwise, counted: the number of assets whose charge [a]
    covers the energy [b]. *)
Definition count_sufficient (socs energy : list Q) : Z :=
  np_count (zip_with (fun x y => Qle_bool y x) socs energy).

(** [l'] is [l] followed by [m] further entries. *)
Definition appended {A : Type} (m : nat) (l l' : list A) : Prop :=
  exists k, l' = l ++ k /\ length k = m.

(** Every history of [h'] is that of [h] followed by [m] further entries. *)
Definition extends (m : nat) (h h' : History) : Prop :=
  appended m (soc_history h) (soc_history h') /\
  appended m (fcr_power_history h) (fcr_power_history h') /\
  appended m (success_history h) (success_history h') /\
  appended m (available_history h) (available_history h') /\
  appended m (soc_ok_history h) (soc_ok_history h').

(** The [i]-th size scanned by the capacity search, and the first [k]
    of them. *)
Definition candidate (n_min step : Z) (i : nat) : Z :=
  (n_min + Z.of_nat i * step)%Z.

Definition first_candidates (n_min step : Z) (k : nat) : list Z :=
  map (candidate n_min step) (seq 0 k).

(** The estimates of the sizes of a list, taken one after the other with
    the estimator and the trial count of the capacity search. *)
Fixpoint estimates {G : Type} `{RandomState G} (g : Globals)
  (sizes : list Z) : M G (list Q) :=
  match sizes with
  | [] => ret []
  | n_assets :: rest =>
      prob <- annual_success_probability g n_assets 100 ;;
      probs <- estimates g rest ;;
      ret (prob :: probs)
  end.

(** A small market for concrete searches: one slot a year, 200 kW
    required, assets of exactly 100 kW. *)
Definition small_market : Globals := {|
  settings := {|
    ENERGY_HOURS := 4;
    REQUIRED_POWER := 200;
    N_SLOTS_YEAR := 1;
    POWER_MEAN := 100;
    POWER_STD := 0;
    SOC_MEAN := 600;
    SOC_STD := 0;
    P_AVAILABLE_FCR := 70 # 100;
    SOC_DEGRADATION_PER_USE := 2 # 1000;
    TARGET_NET_BALANCE := 5 # 10000;
    MIN_SUCCESS_RATE := 95 # 100 |};
  SOC_RECHARGE_RATE :=
    ((2 # 1000) * (70 # 100) + (5 # 10000)) / (1 - (70 # 100))
|}.

(** Every asset available at every draw. *)
Definition always_available : Script :=
  {| cursor := 0; normal_at := fun _ => 0; uniform_at := fun _ => 0 |}.


(** [np.cumsum] of a boolean array, from the running count [acc]. *)
Fixpoint np_cumsum (acc : Z) (a : list bool) : list Z :=
  match a with
  | [] => []
  | b :: a' =>
      let acc' := (acc + if b then 1 else 0)%Z in
      acc' :: np_cumsum acc' a'
  end.

(** [np.arange(start, start + n)] *)
Definition np_arange (start : nat) (n : nat) : list Z :=
  map Z.of_nat (seq start n).

(** [a[-1]] *)
Fixpoint py_last (a : list Q) : result Q :=
  match a with
  | [] => Raise IndexError
  | [x] => Ok x
  | _ :: a' => py_last a'
  end.

(** The cumulated success rate plotted by [plot_power_delivery]
    (line 297), its final value in percent (line 302), and whether the
    final value is written in green (line 303). *)
Definition cumul_success (success : list bool) : list Q :=
  zip_with (fun c k => inject_Z c / inject_Z k)
    (np_cumsum 0 success) (np_arange 1 (length success)).

Definition final_rate (success : list bool) : result Q :=
  try last <- py_last (cumul_success success) ;;
  Ok (last * 100).

Definition final_rate_green (g : Globals) (success : list bool)
  : result bool :=
  try rate <- final_rate success ;;
  Ok (Qle_bool (MIN_SUCCESS_RATE g * 100) rate).

(** What the loop of [simulate_year_with_tracking] keeps true of its
    variables, for a portfolio of [n] assets. *)
Definition year_invariant (g : Globals) (n : nat)
  (st : list Q * Z * History) : Prop :=
  let '(socs, _, h) := st in
  length socs = n /\
  Forall (fun row => length row = n /\ Forall nonneg row) (soc_history h) /\
  length (soc_history h) = S (length (success_history h)) /\
  length (fcr_power_history h) = length (success_history h) /\
  length (available_history h) = length (success_history h) /\
  length (soc_ok_history h) = length (success_history h) /\
  Forall2 (fun (b : bool) p => b = true <-> REQUIRED_POWER g <= p)
    (success_history h) (fcr_power_history h) /\
  Forall (fun k => 0 <= k <= Z.of_nat n)%Z (available_history h) /\
  Forall (fun k => 0 <= k <= Z.of_nat n)%Z (soc_ok_history h).

(** ** binary64 arithmetic

    The values of NumPy's [float64] are the binary64 numbers: 53 bits of
    precision, units in the last place no smaller than [2 ^ -1074].  Every
    arithmetic operation returns the exact result rounded to the nearest
    of them, ties to the even mantissa.  Overflow to infinity is outside
    the model: the exponent is not bounded above. *)

(** The nearest integer, ties to even. *)
Definition round_half_even (t : Q) : Z :=
  let f := Qfloor t in
  match Qcompare (t - inject_Z f) (1 # 2) with
  | Lt => f
  | Eq => if Z.even f then f else (f + 1)%Z
  | Gt => (f + 1)%Z
  end.

(** The binary logarithm of a positive rational, rounded down. *)
Definition Qlog2 (x : Q) : Z :=
  let e := (Z.log2 (Qnum x) - Z.log2 (Zpos (Qden x)))%Z in
  if Qle_bool (2 ^ e) x then e else (e - 1)%Z.

(** The exponent of the unit in the last place around a positive [x]. *)
Definition binary64_exponent (x : Q) : Z := Z.max (Qlog2 x - 52) (-1074).

Definition round_magnitude (x : Q) : Q :=
  let q := binary64_exponent x in
  inject_Z (round_half_even (x / 2 ^ q)) * 2 ^ q.

Definition round_binary64 (x : Q) : Q :=
  match Qcompare x 0 with
  | Lt => - round_magnitude (- x)
  | Eq => 0
  | Gt => round_magnitude x
  end.


(** The value of a finite hardware float, to compare [round_binary64]
    with the floating-point unit. *)
Definition Q_of_float (f : float) : Q :=
  match Prim2SF f with
  | S754_finite s m e =>
      (if s then - inject_Z (Zpos m) else inject_Z (Zpos m)) * 2 ^ e
  | _ => 0
  end.

(** The module constants as Python reads them: each literal is the
    nearest binary64 number. *)
Definition binary64_settings (s : Settings) : Settings := {|
  ENERGY_HOURS := round_binary64 (ENERGY_HOURS s);
  REQUIRED_POWER := round_binary64 (REQUIRED_POWER s);
  N_SLOTS_YEAR := N_SLOTS_YEAR s;
  POWER_MEAN := round_binary64 (POWER_MEAN s);
  POWER_STD := round_binary64 (POWER_STD s);
  SOC_MEAN := round_binary64 (SOC_MEAN s);
  SOC_STD := round_binary64 (SOC_STD s);
  P_AVAILABLE_FCR := round_binary64 (P_AVAILABLE_FCR s);
  SOC_DEGRADATION_PER_USE := round_binary64 (SOC_DEGRADATION_PER_USE s);
  TARGET_NET_BALANCE := round_binary64 (TARGET_NET_BALANCE s);
  MIN_SUCCESS_RATE := round_binary64 (MIN_SUCCESS_RATE s)
|}.

(** Line 30 in binary64: a product, a sum, a difference and a quotient,
    each rounded. *)
Definition exec_module_binary64 (s : Settings) : result Globals :=
  let s := binary64_settings s in
  let numerator :=
    round_binary64
      (round_binary64 (SOC_DEGRADATION_PER_USE s * P_AVAILABLE_FCR s)
       + TARGET_NET_BALANCE s) in
  let denominator := round_binary64 (1 - P_AVAILABLE_FCR s) in
  try rate <- py_div numerator denominator ;;
  Ok {| settings := s; SOC_RECHARGE_RATE := round_binary64 rate |}.

(** The module namespace of the source in binary64. *)
Definition vpp6_binary64 : Globals :=
  match exec_module_binary64 vpp6_settings with
  | Ok g => g
  | Raise _ => vpp6
  end.

(** [a + b] on arrays, every sum rounded by [rnd]. *)
Definition np_add_rounded (rnd : Q -> Q) (a b : list Q) : result (list Q) :=
  if Nat.eqb (length a) (length b)
  then Ok (zip_with (fun x y => rnd (x + y)) a b)
  else Raise ValueError.

(** [update_soc] with its two products and its sum rounded by [rnd]; the
    negation and the clamp are exact in floating point. *)
Definition update_soc_rounded (rnd : Q -> Q) (g : Globals)
  (socs powers : list Q) (available_for_fcr : list bool)
  : result (list Q) :=
  let delta_soc := np_zeros_like socs in
  try delta_soc <- np_mask_assign delta_soc available_for_fcr
                     (rnd (- SOC_DEGRADATION_PER_USE g * SOC_MEAN g)) ;;
  try delta_soc <- np_mask_assign delta_soc (np_invert available_for_fcr)
                     (rnd (SOC_RECHARGE_RATE g * SOC_MEAN g)) ;;
  try socs <- np_add_rounded rnd socs delta_soc ;;
  Ok (np_clip_min socs 0).

(** [update_soc] as NumPy runs it. *)
Definition update_soc_binary64 : Globals -> list Q -> list Q -> list bool ->
                                 result (list Q) :=
  update_soc_rounded round_binary64.

(** The change of charge of a used and of an unused asset, in binary64. *)
Definition discharge_binary64 (g : Globals) : Q :=
  round_binary64 (- SOC_DEGRADATION_PER_USE g * SOC_MEAN g).

Definition recharge_binary64 (g : Globals) : Q :=
  round_binary64 (SOC_RECHARGE_RATE g * SOC_MEAN g).

(** * Properties *)

(** ** Lists and primitives *)

Lemma length_zip_with {A B C : Type} (f : A -> B -> C) xs ys :
  length xs = length ys -> length (zip_with f xs ys) = length xs.
Proof.
  revert ys; induction xs as [|x xs IH]; intros [|y ys]; simpl; try easy.
  intros E; f_equal; apply IH; lia.
Qed.

Lemma nth_error_zip_with {A B C : Type} (f : A -> B -> C) xs ys i x y :
  nth_error xs i = Some x -> nth_error ys i = Some y ->
  nth_error (zip_with f xs ys) i = Some (f x y).
Proof.
  revert ys i; induction xs as [|a xs IH]; intros [|b ys] [|i]; simpl;
    try discriminate.
  - now intros [= ->] [= ->].
  - apply IH.
Qed.

Lemma Qmaximum_lower x lo : lo <= Qmaximum x lo.
Proof.
  unfold Qmaximum; destruct (Qle_bool lo x) eqn:E.
  - now apply Qle_bool_iff.
  - apply Qle_refl.
Qed.


Lemma np_clip_min_lower a lo : Forall (fun x => lo <= x) (np_clip_min a lo).
Proof.
  unfold np_clip_min; induction a; simpl; constructor; auto using Qmaximum_lower.
Qed.

Lemma length_np_clip_min a lo : length (np_clip_min a lo) = length a.
Proof. apply length_map. Qed.

(** ** The update rule *)

Section UpdateRule.

Variable g : Globals.

Lemma delta_assignments socs mask :
  length mask = length socs ->
  zip_with Qplus socs
    (zip_with (fun x (b : bool) =>
                 if b then SOC_RECHARGE_RATE g * SOC_MEAN g else x)
       (zip_with (fun x (b : bool) =>
                    if b then - SOC_DEGRADATION_PER_USE g * SOC_MEAN g
                    else x)
          (np_zeros_like socs) mask)
       (np_invert mask))
  = zip_with (fun s m => s + soc_delta g m) socs mask.
Proof.
  revert mask; induction socs as [|s socs IH]; intros [|m mask]; simpl;
    try easy.
  intros E; rewrite IH by lia.
  now destruct m.
Qed.

(** [update_soc] is the elementwise rule [updated], or an [IndexError]
    when the mask has not the length of the charges. *)
Lemma update_soc_elementwise socs powers mask :
  update_soc g socs powers mask =
  if Nat.eqb (length mask) (length socs)
  then Ok (zip_with (updated g) socs mask)
  else Raise IndexError.
Proof.
  unfold update_soc, np_mask_assign, np_add, np_invert, np_zeros_like.
  rewrite !length_map.
  destruct (Nat.eqb (length mask) (length socs)) eqn:E; simpl; [|reflexivity].
  apply Nat.eqb_eq in E.
  rewrite length_zip_with by (now rewrite length_map).
  rewrite !length_map, E, Nat.eqb_refl; simpl.
  rewrite length_zip_with
    by (rewrite length_zip_with; rewrite !length_map; congruence).
  rewrite length_zip_with by (now rewrite length_map).
  rewrite length_map, Nat.eqb_refl; simpl.
  fold (np_zeros_like socs); fold (np_invert mask).
  rewrite delta_assignments by exact E.
  unfold np_clip_min, updated; f_equal.
  clear E; revert mask; induction socs as [|s socs IH]; intros [|m mask];
    simpl; try reflexivity.
  now rewrite IH.
Qed.

Lemma updated_nonneg s used : 0 <= updated g s used.
Proof. apply Qmaximum_lower. Qed.

Lemma Forall_zip_with_updated socs mask :
  Forall nonneg (zip_with (updated g) socs mask).
Proof.
  revert mask; induction socs as [|s socs IH]; intros [|m mask]; simpl;
    constructor; [apply updated_nonneg | apply IH].
Qed.

End UpdateRule.

(** C6. Whatever the charges, the powers and the mask, every component of
    the vector returned by [update_soc] is at least 0, also where the
    change applied would take a charge below zero; the vector has the
    length of the input, and the only failure is the [IndexError] of a mask
    whose length is not that of the charges. *)
Theorem update_soc_nonneg (g : Globals) (socs powers : list Q)
  (mask : list bool) :
  match update_soc g socs powers mask with
  | Ok out => Forall nonneg out /\ length out = length socs
  | Raise e => e = IndexError /\ length mask <> length socs
  end.
Proof.
  rewrite update_soc_elementwise.
  destruct (Nat.eqb (length mask) (length socs)) eqn:E.
  - apply Nat.eqb_eq in E; split.
    + apply Forall_zip_with_updated.
    + now apply length_zip_with.
  - apply Nat.eqb_neq in E; now split.
Qed.

(** ** The slot simulator *)

Lemma draws_total {G : Type} (draw : G -> Q * G) (n : nat) (r : G) :
  exists xs r', draws draw n r = Ok (xs, r') /\ length xs = n.
Proof.
  revert r; induction n as [|n IH]; intros r; simpl.
  - now exists [], r.
  - destruct (draw r) as [x r1]; unfold bind.
    destruct (IH r1) as (xs & r2 & -> & L).
    exists (x :: xs), r2; simpl; auto.
Qed.

Lemma select_deliverable powers can :
  np_sum (select powers can) == deliverable_power powers can.
Proof.
  unfold np_sum.
  assert (Acc : forall l a, fold_left Qplus l a == a + fold_left Qplus l 0).
  { induction l as [|x l IH]; intros a; simpl; [lra|].
    rewrite (IH (a + x)), (IH (0 + x)); lra. }
  revert can; induction powers as [|p powers IH]; intros [|c can]; simpl;
    try reflexivity.
  destruct c; simpl.
  - rewrite Acc, IH; lra.
  - rewrite IH; lra.
Qed.

Lemma np_ge_same_length a b :
  length a = length b ->
  np_ge a b = Ok (zip_with (fun x y => Qle_bool y x) a b).
Proof. unfold np_ge; intros ->; now rewrite Nat.eqb_refl. Qed.

Lemma np_and_same_length a b :
  length a = length b -> np_and a b = Ok (zip_with andb a b).
Proof. unfold np_and; intros ->; now rewrite Nat.eqb_refl. Qed.

Lemma np_mask_select_same_length a mask :
  length mask = length a -> np_mask_select a mask = Ok (select a mask).
Proof. unfold np_mask_select; intros ->; now rewrite Nat.eqb_refl. Qed.

(** Lengths of elementwise expressions, from the lengths in the context. *)
Ltac same_length :=
  unfold np_lt_scalar, np_scale, np_clip_min;
  repeat (rewrite length_map || (rewrite length_zip_with; [|same_length]));
  congruence.

Section SlotSimulator.

Context {G : Type} `{RandomState G}.
Variable g : Globals.

(** The run of [simulate_fcr_slot], step by step: either the power
    spread is negative and the normal draw is refused, or the two vectors
    are drawn in turn and the four results are the source's expressions
    of them. *)
Lemma simulate_fcr_slot_run (socs : list Q) (r : G) :
  (POWER_STD g < 0 /\ simulate_fcr_slot g socs r = Raise ValueError)
  \/
  exists zs us r1 r2,
    draws standard_normal (length socs) r = Ok (zs, r1) /\
    draws random_sample (length socs) r1 = Ok (us, r2) /\
    length zs = length socs /\ length us = length socs /\
    let powers :=
      np_clip_min (map (fun z => POWER_MEAN g + POWER_STD g * z) zs) 20 in
    let available := np_lt_scalar us (P_AVAILABLE_FCR g) in
    let has_enough :=
      zip_with (fun x y => Qle_bool y x) socs
        (np_scale powers (ENERGY_HOURS g)) in
    let can_provide := zip_with andb available has_enough in
    simulate_fcr_slot g socs r =
    Ok (Qle_bool (REQUIRED_POWER g) (np_sum (select powers can_provide)),
        can_provide, available, powers, r2).
Proof.
  unfold simulate_fcr_slot, np_random_normal, np_random_random.
  destruct (Qlt_bool (POWER_STD g) 0) eqn:Estd.
  - left; split; [|reflexivity].
    unfold Qlt_bool in Estd; apply negb_true_iff in Estd.
    apply Qnot_le_lt; intros L; apply Qle_bool_iff in L; congruence.
  - right.
    assert (Eneg : (Z.of_nat (length socs) <? 0)%Z = false)
      by (apply Z.ltb_ge; lia).
    rewrite Eneg, Nat2Z.id.
    destruct (draws_total standard_normal (length socs) r)
      as (zs & r1 & Ez & Lz).
    destruct (draws_total random_sample (length socs) r1)
      as (us & r2 & Eu & Lu).
    exists zs, us, r1, r2; repeat split; try assumption.
    unfold bind at 1 2; rewrite Ez; unfold ret at 1.
    unfold bind at 1; rewrite Eu.
    unfold bind at 1 2 3.
    rewrite np_ge_same_length by same_length; unfold lift at 1.
    rewrite np_and_same_length by same_length; unfold lift at 1.
    rewrite np_mask_select_same_length by same_length.
    reflexivity.
Qed.

End SlotSimulator.

(** C5. For every charge vector and every state of the generator, the
    success flag of [simulate_fcr_slot] is true exactly when the drawn
    powers of the assets of the can-deliver mask sum to at least
    [REQUIRED_POWER], equality included.  The only run without a flag is
    the one refused for a negative power spread. *)
Theorem simulate_fcr_slot_success {G : Type} `{RandomState G} (g : Globals)
  (socs : list Q) (r : G) :
  match simulate_fcr_slot g socs r with
  | Ok (success, can_provide, available, powers, _) =>
      success = true <-> REQUIRED_POWER g <= deliverable_power powers can_provide
  | Raise e => e = ValueError /\ POWER_STD g < 0
  end.
Proof.
  destruct (simulate_fcr_slot_run g socs r)
    as [[Hstd ->]|(zs & us & r1 & r2 & _ & _ & _ & _ & ->)]; [now split|].
  rewrite Qle_bool_iff, select_deliverable; reflexivity.
Qed.

(** C7. For every charge vector and every state of the generator, the
    can-deliver mask returned by [simulate_fcr_slot] lies within the
    available mask: both have one entry per asset, and wherever
    can-deliver is true so is available. *)
Theorem can_deliver_subset_available {G : Type} `{RandomState G}
  (g : Globals) (socs : list Q) (r : G) :
  match simulate_fcr_slot g socs r with
  | Ok (_, can_provide, available, _, _) =>
      length can_provide = length socs /\
      length available = length socs /\
      forall i, nth i can_provide false = true -> nth i available false = true
  | Raise e => e = ValueError /\ POWER_STD g < 0
  end.
Proof.
  destruct (simulate_fcr_slot_run g socs r)
    as [[Hstd ->]|(zs & us & r1 & r2 & _ & _ & Lz & Lu & ->)]; [now split|].
  assert (La : length (np_lt_scalar us (P_AVAILABLE_FCR g)) = length socs)
    by (unfold np_lt_scalar; now rewrite length_map).
  split; [|split; [exact La|]].
  - rewrite length_zip_with; [exact La|].
    rewrite La, length_zip_with; [reflexivity|].
    unfold np_scale, np_clip_min; rewrite !length_map; congruence.
  - generalize (np_lt_scalar us (P_AVAILABLE_FCR g)) as av.
    generalize (zip_with (fun x y => Qle_bool y x) socs
                  (np_scale
                     (np_clip_min
                        (map (fun z => POWER_MEAN g + POWER_STD g * z) zs) 20)
                     (ENERGY_HOURS g))) as en.
    intros en av; revert en; induction av as [|a av IH]; intros [|e en] [|i];
      simpl; try discriminate.
    + intros E; apply andb_true_iff in E; tauto.
    + apply IH.
Qed.

(** ** Sequencing *)

Lemma bind_Ok {G A B : Type} (m : M G A) (k : A -> M G B) r a r' :
  m r = Ok (a, r') -> (x <- m ;; k x) r = k a r'.
Proof. unfold bind; now intros ->. Qed.

Lemma bind_Raise {G A B : Type} (m : M G A) (k : A -> M G B) r e :
  m r = Raise e -> (x <- m ;; k x) r = Raise e.
Proof. unfold bind; now intros ->. Qed.

Lemma bind_lift {G A B : Type} (x : result A) (k : A -> M G B) (r : G) :
  (a <- lift x ;; k a) r
  = match x with Ok a => k a r | Raise e => Raise e end.
Proof. unfold bind, lift; now destruct x. Qed.

(** ** Loops *)

Lemma for_range_add {G St : Type} (n m : nat) (body : St -> M G St)
  (s : St) (r : G) :
  for_range (n + m) body s r = (s' <- for_range n body s ;; for_range m body s') r.
Proof.
  revert s r; induction n as [|n IH]; intros s r; simpl.
  - reflexivity.
  - unfold bind.
    destruct (body s r) as [[s1 r1]|e]; [|reflexivity].
    apply IH.
Qed.

Lemma for_range_succ_r {G St : Type} (n : nat) (body : St -> M G St)
  (s : St) (r : G) :
  for_range (S n) body s r = (s' <- for_range n body s ;; body s') r.
Proof.
  replace (S n) with (n + 1)%nat by lia; rewrite for_range_add.
  unfold bind; destruct (for_range n body s r) as [[s1 r1]|e];
    [|reflexivity].
  simpl; unfold bind, ret; now destruct (body s1 r1) as [[s2 r2]|e].
Qed.

(** Two loops whose bodies commute with a projection of the state compute
    projected states. *)
Lemma for_range_projection {G St T : Type} (f : St -> T)
  (body : St -> M G St) (body' : T -> M G T) :
  (forall s r, body' (f s) r = on_value f (body s r)) ->
  forall n s r,
    for_range n body' (f s) r = on_value f (for_range n body s r).
Proof.
  intros Hstep; induction n as [|n IH]; intros s r; simpl.
  - reflexivity.
  - unfold bind; rewrite Hstep.
    destruct (body s r) as [[s1 r1]|e]; simpl; [apply IH | reflexivity].
Qed.

(** ** The year simulators *)

Section YearSimulators.

Context {G : Type} `{RandomState G}.
Variable g : Globals.

(** One slot of the tracking loop, step by step. *)
Lemma tracking_slot_run socs c h (r : G) :
  match simulate_fcr_slot g socs r with
  | Ok (success, can_provide, available, powers, r') =>
      let socs' := zip_with (updated g) socs can_provide in
      update_soc g socs powers can_provide = Ok socs' /\
      length socs' = length socs /\
      year_slot g (socs, c) r =
        Ok (socs', if success then (c + 1)%Z else c, r') /\
      tracking_slot g (socs, c, h) r =
        Ok (socs', if success then (c + 1)%Z else c,
            {| soc_history := soc_history h ++ [socs'];
               fcr_power_history :=
                 fcr_power_history h ++ [np_sum (select powers can_provide)];
               success_history := success_history h ++ [success];
               available_history :=
                 available_history h ++ [np_count available];
               soc_ok_history :=
                 soc_ok_history h ++
                 [count_sufficient socs'
                    (np_scale powers (ENERGY_HOURS g))] |}, r')
  | Raise e =>
      year_slot g (socs, c) r = Raise e /\
      tracking_slot g (socs, c, h) r = Raise e
  end.
Proof.
  destruct (simulate_fcr_slot_run g socs r)
    as [[Hstd E]|(zs & us & r1 & r2 & _ & _ & Lz & Lu & E)];
    cbv zeta in E; rewrite E.
  { unfold tracking_slot, year_slot, bind; now rewrite E. }
  set (powers := np_clip_min _ 20) in *.
  set (available := np_lt_scalar us _) in *.
  set (can := zip_with andb available _) in *.
  assert (Lp : length powers = length socs) by (subst powers; same_length).
  assert (Lc : length can = length socs)
    by (subst can available powers; same_length).
  assert (Eu : update_soc g socs powers can
               = Ok (zip_with (updated g) socs can))
    by (now rewrite update_soc_elementwise, Lc, Nat.eqb_refl).
  assert (Ls : length (zip_with (updated g) socs can) = length socs)
    by (now apply length_zip_with).
  repeat split; try assumption.
  - unfold year_slot, bind; rewrite E.
    unfold lift, ret; now rewrite Eu.
  - unfold tracking_slot, bind; rewrite E.
    unfold lift, ret; rewrite Eu.
    rewrite np_mask_select_same_length by congruence.
    rewrite np_ge_same_length
      by (unfold np_scale; rewrite length_map; congruence).
    reflexivity.
Qed.

(** The loop of [simulate_year] is the loop of
    [simulate_year_with_tracking] without its histories. *)
Lemma year_slot_forgets st (r : G) :
  year_slot g (forget_history st) r
  = on_value forget_history (tracking_slot g st r).
Proof.
  destruct st as [[socs c] h]; simpl forget_history.
  pose proof (tracking_slot_run socs c h r) as R.
  destruct (simulate_fcr_slot g socs r) as [[[[[b can] av] pw] r']|e].
  - destruct R as (_ & _ & -> & ->); reflexivity.
  - destruct R as (-> & ->); reflexivity.
Qed.

Lemma year_loop_forgets n st (r : G) :
  for_range n (year_slot g) (forget_history st) r
  = on_value forget_history (for_range n (tracking_slot g) st r).
Proof. apply for_range_projection, year_slot_forgets. Qed.

(** *** Histories only grow, by one entry per slot *)

Lemma appended_refl {A : Type} (l : list A) : appended 0 l l.
Proof. exists []; now rewrite app_nil_r. Qed.

Lemma appended_one {A : Type} (l : list A) x : appended 1 l (l ++ [x]).
Proof. now exists [x]. Qed.

Lemma appended_trans {A : Type} m k (l1 l2 l3 : list A) :
  appended m l1 l2 -> appended k l2 l3 -> appended (m + k) l1 l3.
Proof.
  intros (a & -> & La) (b & -> & Lb); exists (a ++ b).
  now rewrite app_assoc, length_app, La, Lb.
Qed.

Lemma appended_nth_error {A : Type} m (l l' : list A) i x :
  appended m l l' -> nth_error l i = Some x -> nth_error l' i = Some x.
Proof.
  intros (k & -> & _) E; rewrite nth_error_app1; [exact E|].
  apply nth_error_Some; congruence.
Qed.

Lemma appended_length {A : Type} m (l l' : list A) :
  appended m l l' -> length l' = (length l + m)%nat.
Proof. intros (k & -> & <-); apply length_app. Qed.

Lemma extends_refl h : extends 0 h h.
Proof. repeat split; apply appended_refl. Qed.

Lemma extends_trans m k h1 h2 h3 :
  extends m h1 h2 -> extends k h2 h3 -> extends (m + k) h1 h3.
Proof.
  intros (A1 & A2 & A3 & A4 & A5) (B1 & B2 & B3 & B4 & B5).
  repeat split; eapply appended_trans; eassumption.
Qed.

Lemma tracking_slot_extends socs c h (r : G) socs' c' h' r' :
  tracking_slot g (socs, c, h) r = Ok (socs', c', h', r') ->
  extends 1 h h'.
Proof.
  intros E; pose proof (tracking_slot_run socs c h r) as R.
  destruct (simulate_fcr_slot g socs r) as [[[[[b can] av] pw] r1]|e].
  - destruct R as (_ & _ & _ & R); rewrite R in E.
    injection E as <- <- <- <-.
    repeat split; apply appended_one.
  - destruct R as (_ & R); congruence.
Qed.

Lemma tracking_loop_extends n socs c h (r : G) socs' c' h' r' :
  for_range n (tracking_slot g) (socs, c, h) r = Ok (socs', c', h', r') ->
  extends n h h'.
Proof.
  revert socs c h r; induction n as [|n IH]; intros socs c h r;
    cbn [for_range].
  - unfold ret; intros [= <- <- <- <-]; apply extends_refl.
  - unfold bind.
    destruct (tracking_slot g (socs, c, h) r)
      as [[[[socs1 c1] h1] r1]|e] eqn:E1; [|easy].
    intros E; apply (extends_trans 1 n h h1 h').
    + eapply tracking_slot_extends; eassumption.
    + eapply IH; eassumption.
Qed.

(** *** The success count is the number of true flags *)

Lemma np_count_app l b :
  np_count (l ++ [b]) = (np_count l + if b then 1 else 0)%Z.
Proof.
  unfold np_count; rewrite filter_app, length_app; destruct b; simpl; lia.
Qed.

Lemma np_count_bounds l : (0 <= np_count l <= Z.of_nat (length l))%Z.
Proof.
  unfold np_count; pose proof (filter_length_le (fun b : bool => b) l); lia.
Qed.

Lemma tracking_loop_count n socs c h (r : G) socs' c' h' r' :
  for_range n (tracking_slot g) (socs, c, h) r = Ok (socs', c', h', r') ->
  (c' - c = np_count (success_history h') - np_count (success_history h))%Z.
Proof.
  revert socs c h r; induction n as [|n IH]; intros socs c h r;
    cbn [for_range].
  - unfold ret; intros [= <- <- <- <-]; lia.
  - unfold bind.
    destruct (tracking_slot g (socs, c, h) r)
      as [[[[socs1 c1] h1] r1]|e] eqn:E1; [|easy].
    intros E; apply IH in E.
    pose proof (tracking_slot_run socs c h r) as R.
    destruct (simulate_fcr_slot g socs r) as [[[[[b can] av] pw] r2]|e].
    + destruct R as (_ & _ & _ & R); rewrite R in E1.
      injection E1 as <- <- <- <-; simpl in E.
      rewrite np_count_app in E; destruct b; lia.
    + destruct R as (_ & R); congruence.
Qed.

(** *** What slot [t] leaves in the histories *)

Lemma tracking_loop_slot n socs0 c0 h0 (r0 : G) socs' c' h' r' t :
  for_range n (tracking_slot g) (socs0, c0, h0) r0 = Ok (socs', c', h', r') ->
  (t < n)%nat ->
  exists socs_t c_t h_t r_t success can_provide available powers r_t',
    for_range t (tracking_slot g) (socs0, c0, h0) r0
      = Ok (socs_t, c_t, h_t, r_t) /\
    simulate_fcr_slot g socs_t r_t
      = Ok (success, can_provide, available, powers, r_t') /\
    let socs_t' := zip_with (updated g) socs_t can_provide in
    update_soc g socs_t powers can_provide = Ok socs_t' /\
    nth_error (soc_history h') (length (soc_history h0) + t)
      = Some socs_t' /\
    nth_error (success_history h') (length (success_history h0) + t)
      = Some success /\
    nth_error (soc_ok_history h') (length (soc_ok_history h0) + t)
      = Some (count_sufficient socs_t' (np_scale powers (ENERGY_HOURS g))).
Proof.
  intros E Ht.
  replace n with (t + S (n - S t))%nat in E by lia.
  rewrite for_range_add in E; unfold bind in E at 1.
  destruct (for_range t (tracking_slot g) (socs0, c0, h0) r0)
    as [[[[socs_t c_t] h_t] r_t]|e] eqn:Et; [|discriminate].
  cbn [for_range] in E; unfold bind in E at 1.
  destruct (tracking_slot g (socs_t, c_t, h_t) r_t)
    as [[[[socs1 c1] h1] r1]|e] eqn:E1; [|discriminate].
  pose proof (tracking_loop_extends _ _ _ _ _ _ _ _ _ Et) as Xt.
  pose proof (tracking_loop_extends _ _ _ _ _ _ _ _ _ E) as Xn.
  pose proof (tracking_slot_run socs_t c_t h_t r_t) as R.
  destruct (simulate_fcr_slot g socs_t r_t)
    as [[[[[b can] av] pw] r2]|e] eqn:Eslot;
    [|destruct R as (_ & R); congruence].
  destruct R as (Eu & _ & _ & R); rewrite R in E1.
  injection E1 as <- <- <- <-.
  exists socs_t, c_t, h_t, r_t, b, can, av, pw, r2.
  destruct Xt as (T1 & _ & T3 & _ & T5), Xn as (N1 & _ & N3 & _ & N5).
  simpl in N1, N3, N5.
  repeat split; try assumption.
  - eapply appended_nth_error; [exact N1|].
    rewrite <- (appended_length _ _ _ T1).
    now rewrite nth_error_app2, Nat.sub_diag by lia.
  - eapply appended_nth_error; [exact N3|].
    rewrite <- (appended_length _ _ _ T3).
    now rewrite nth_error_app2, Nat.sub_diag by lia.
  - eapply appended_nth_error; [exact N5|].
    rewrite <- (appended_length _ _ _ T5).
    now rewrite nth_error_app2, Nat.sub_diag by lia.
Qed.

(** *** The two year simulators, step by step *)

Lemma simulate_year_with_tracking_run n_assets (r : G) :
  match np_random_normal (SOC_MEAN g) (SOC_STD g) n_assets r with
  | Ok (raw, r0) =>
      let socs0 := np_clip_min raw 0 in
      match for_range (Z.to_nat (N_SLOTS_YEAR g)) (tracking_slot g)
              (socs0, 0%Z, initial_history socs0) r0 with
      | Ok (socs, c, h, r') =>
          c = np_count (success_history h) /\
          length (success_history h) = Z.to_nat (N_SLOTS_YEAR g) /\
          simulate_year_with_tracking g n_assets r =
            match py_div (inject_Z c) (inject_Z (N_SLOTS_YEAR g)) with
            | Ok rate => Ok ({| history := h; success_rate := rate |}, r')
            | Raise e => Raise e
            end
      | Raise e => simulate_year_with_tracking g n_assets r = Raise e
      end
  | Raise e => simulate_year_with_tracking g n_assets r = Raise e
  end.
Proof.
  unfold simulate_year_with_tracking.
  destruct (np_random_normal (SOC_MEAN g) (SOC_STD g) n_assets r)
    as [[raw r0]|e] eqn:E0;
    [rewrite (bind_Ok _ _ _ _ _ E0) | now rewrite (bind_Raise _ _ _ _ E0)].
  cbv zeta; fold (initial_history (np_clip_min raw 0)).
  destruct (for_range _ _ _ r0) as [[[[socs c] h] r']|e] eqn:E;
    [rewrite (bind_Ok _ _ _ _ _ E) | now rewrite (bind_Raise _ _ _ _ E)].
  pose proof (tracking_loop_count _ _ _ _ _ _ _ _ _ E) as C.
  pose proof (tracking_loop_extends _ _ _ _ _ _ _ _ _ E) as (_ & _ & X & _).
  apply appended_length in X; simpl in C, X.
  repeat split; [unfold np_count in C at 2; simpl in C; lia | exact X |].
  rewrite bind_lift.
  now destruct (py_div (inject_Z c) (inject_Z (N_SLOTS_YEAR g))).
Qed.

Lemma simulate_year_run n_assets (r : G) :
  simulate_year g n_assets r
  = on_value (fun res => Qle_bool (MIN_SUCCESS_RATE g) (success_rate res))
      (simulate_year_with_tracking g n_assets r).
Proof.
  unfold simulate_year, simulate_year_with_tracking.
  destruct (np_random_normal (SOC_MEAN g) (SOC_STD g) n_assets r)
    as [[raw r0]|e] eqn:E0;
    [rewrite !(bind_Ok _ _ _ _ _ E0) | now rewrite !(bind_Raise _ _ _ _ E0)].
  cbv zeta; fold (initial_history (np_clip_min raw 0)).
  pose proof (year_loop_forgets (Z.to_nat (N_SLOTS_YEAR g))
                (np_clip_min raw 0, 0%Z, initial_history (np_clip_min raw 0))
                r0) as F.
  simpl forget_history in F.
  destruct (for_range _ (tracking_slot g) _ r0)
    as [[[[socs c] h] r']|e] eqn:E; simpl in F.
  - rewrite (bind_Ok _ _ _ _ _ E), (bind_Ok _ _ _ _ _ F), !bind_lift.
    now destruct (py_div (inject_Z c) (inject_Z (N_SLOTS_YEAR g))).
  - now rewrite (bind_Raise _ _ _ _ E), (bind_Raise _ _ _ _ F).
Qed.

(** *** The year simulators return *)

Lemma np_random_normal_run loc scale size (r : G) :
  ((scale < 0 \/ (size < 0)%Z) /\
   np_random_normal loc scale size r = Raise ValueError)
  \/
  (0 <= scale /\ (0 <= size)%Z /\
   exists zs r',
     length zs = Z.to_nat size /\
     np_random_normal loc scale size r
     = Ok (map (fun z => loc + scale * z) zs, r')).
Proof.
  unfold np_random_normal, Qlt_bool.
  destruct (Qle_bool 0 scale) eqn:Es; simpl.
  - apply Qle_bool_iff in Es.
    destruct (size <? 0)%Z eqn:En.
    + left; split; [right; now apply Z.ltb_lt | reflexivity].
    + right; apply Z.ltb_ge in En; repeat split; try assumption.
      destruct (draws_total standard_normal (Z.to_nat size) r)
        as (zs & r' & E & L).
      exists zs, r'; split; [exact L|].
      unfold bind, ret; now rewrite E.
  - left; split; [left | reflexivity].
    apply Qnot_le_lt; intros L; apply Qle_bool_iff in L; congruence.
Qed.

Lemma tracking_loop_total n st (r : G) :
  0 <= POWER_STD g ->
  exists st' r', for_range n (tracking_slot g) st r = Ok (st', r').
Proof.
  intros Hstd; revert st r; induction n as [|n IH]; intros st r;
    cbn [for_range].
  - now exists st, r.
  - unfold bind; destruct st as [[socs c] h].
    pose proof (tracking_slot_run socs c h r) as R.
    destruct (simulate_fcr_slot_run g socs r)
      as [[Hneg _]|(zs & us & r1 & r2 & _ & _ & _ & _ & E)]; [lra|].
    cbv zeta in E; rewrite E in R.
    destruct R as (_ & _ & _ & ->); apply IH.
Qed.

End YearSimulators.

Lemma success_fraction_range (g : Globals) (flags : list bool) :
  length flags = Z.to_nat (N_SLOTS_YEAR g) ->
  N_SLOTS_YEAR g <> 0%Z ->
  0 <= success_fraction g flags <= 1.
Proof.
  intros L N0; unfold success_fraction.
  pose proof (np_count_bounds flags) as B; rewrite L in B.
  destruct (Z.lt_trichotomy (N_SLOTS_YEAR g) 0) as [Neg|[Z0|Pos]];
    [|contradiction|].
  - replace (np_count flags) with 0%Z by lia.
    unfold Qdiv; rewrite Qmult_0_l; split; [apply Qle_refl | discriminate].
  - assert (P : 0 < inject_Z (N_SLOTS_YEAR g))
      by (now rewrite <- (Zlt_Qlt 0)).
    split.
    + apply Qle_shift_div_l; [exact P|].
      rewrite Qmult_0_l; rewrite <- (Zle_Qle 0); lia.
    + apply Qle_shift_div_r; [exact P|].
      rewrite Qmult_1_l; rewrite <- Zle_Qle; lia.
Qed.

Lemma py_div_Ok a b q : py_div a b = Ok q -> ~ b == 0 /\ q = a / b.
Proof.
  unfold py_div; destruct (Qeq_bool b 0) eqn:E; [discriminate|].
  intros [= <-]; split; [|reflexivity].
  intros Z; apply Qeq_bool_iff in Z; congruence.
Qed.

Lemma np_count_concat l k : np_count (l ++ k) = (np_count l + np_count k)%Z.
Proof. unfold np_count; rewrite filter_app, length_app; lia. Qed.

(** A year with one successful and one failed slot has a success count
    strictly between 0 and the number of slots. *)
Lemma np_count_mixed l i j :
  nth_error l i = Some true -> nth_error l j = Some false ->
  (1 <= np_count l <= Z.of_nat (length l) - 1)%Z.
Proof.
  intros Hi Hj; split.
  - apply nth_error_split in Hi as (l1 & l2 & -> & _).
    rewrite np_count_concat.
    change (true :: l2) with ([true] ++ l2); rewrite np_count_concat.
    pose proof (np_count_bounds l1); pose proof (np_count_bounds l2).
    change (np_count [true]) with 1%Z; lia.
  - apply nth_error_split in Hj as (l1 & l2 & -> & _).
    rewrite np_count_concat, length_app.
    change (false :: l2) with ([false] ++ l2); rewrite np_count_concat.
    pose proof (np_count_bounds l1); pose proof (np_count_bounds l2).
    change (np_count [false]) with 0%Z; simpl length; lia.
Qed.

Section YearFlags.

Context {G : Type} `{RandomState G}.
Variable g : Globals.

(** The flags recorded by the tracking simulator are, slot by slot,
    those computed in the loop of [simulate_year]. *)
Lemma tracking_year_flags n_assets (r : G) raw r0 res r' :
  np_random_normal (SOC_MEAN g) (SOC_STD g) n_assets r = Ok (raw, r0) ->
  simulate_year_with_tracking g n_assets r = Ok (res, r') ->
  length (success_history res) = Z.to_nat (N_SLOTS_YEAR g) /\
  N_SLOTS_YEAR g <> 0%Z /\
  success_rate res = success_fraction g (success_history res) /\
  forall t, (t < Z.to_nat (N_SLOTS_YEAR g))%nat ->
    exists b,
      nth_error (success_history res) t = Some b /\
      year_slot_flag g (np_clip_min raw 0) r0 t = Ok b.
Proof.
  intros E0 Eres.
  pose proof (simulate_year_with_tracking_run g n_assets r) as R.
  rewrite E0 in R; cbv zeta in R.
  destruct (for_range _ _ _ r0) as [[[[socs c] h] r1]|e] eqn:E;
    [|congruence].
  destruct R as (C & L & R); rewrite R in Eres.
  destruct (py_div (inject_Z c) (inject_Z (N_SLOTS_YEAR g))) as [rate|e]
    eqn:D; [|discriminate].
  injection Eres as <- <-; simpl.
  apply py_div_Ok in D as (N0 & ->).
  repeat split; try assumption.
  - intros Z0; apply N0; now rewrite Z0.
  - unfold success_fraction; now rewrite C.
  - intros t Ht.
    destruct (tracking_loop_slot g _ _ _ _ _ _ _ _ _ t E Ht)
      as (socs_t & c_t & h_t & r_t & b & can & av & pw & r_t' & Et & Es
          & _ & _ & Hb & _).
    exists b; split; [exact Hb|].
    unfold year_slot_flag.
    change (np_clip_min raw 0, 0%Z) with
      (forget_history (np_clip_min raw 0, 0%Z,
                       initial_history (np_clip_min raw 0))).
    rewrite year_loop_forgets, Et; simpl; now rewrite Es.
Qed.

(** The tracking simulator returns once the initial charges are drawn,
    for a power spread that is not negative and a slot count that is
    not zero. *)
Lemma simulate_year_with_tracking_total n_assets (r : G) raw r0 :
  np_random_normal (SOC_MEAN g) (SOC_STD g) n_assets r = Ok (raw, r0) ->
  0 <= POWER_STD g ->
  N_SLOTS_YEAR g <> 0%Z ->
  exists res r', simulate_year_with_tracking g n_assets r = Ok (res, r').
Proof.
  intros E0 Hstd N0.
  pose proof (simulate_year_with_tracking_run g n_assets r) as R.
  rewrite E0 in R; cbv zeta in R.
  destruct (tracking_loop_total g (Z.to_nat (N_SLOTS_YEAR g))
              (np_clip_min raw 0, 0%Z, initial_history (np_clip_min raw 0))
              r0 Hstd) as ([[socs c] h] & r1 & E).
  rewrite E in R; destruct R as (_ & _ & ->).
  unfold py_div.
  destruct (Qeq_bool (inject_Z (N_SLOTS_YEAR g)) 0) eqn:D; [|eauto].
  apply Qeq_bool_iff in D; exfalso; apply N0.
  unfold Qeq in D; simpl in D; lia.
Qed.

(** A year whose first slot succeeds and whose second slot fails has a
    fraction of successful slots strictly between 0 and 1. *)
Lemma mixed_year_fraction n_assets (r : G) raw r0 :
  np_random_normal (SOC_MEAN g) (SOC_STD g) n_assets r = Ok (raw, r0) ->
  0 <= POWER_STD g ->
  (2 <= N_SLOTS_YEAR g)%Z ->
  year_slot_flag g (np_clip_min raw 0) r0 0 = Ok true ->
  year_slot_flag g (np_clip_min raw 0) r0 1 = Ok false ->
  exists res r',
    simulate_year_with_tracking g n_assets r = Ok (res, r') /\
    0 < success_fraction g (success_history res) /\
    success_fraction g (success_history res) < 1.
Proof.
  intros E0 Hstd N2 F0 F1.
  destruct (simulate_year_with_tracking_total n_assets r raw r0 E0 Hstd)
    as (res & r' & E); [lia|].
  exists res, r'; split; [exact E|].
  destruct (tracking_year_flags n_assets r raw r0 res r' E0 E)
    as (L & _ & _ & Fl).
  destruct (Fl 0%nat) as (b0 & Hb0 & Hf0); [lia|].
  destruct (Fl 1%nat) as (b1 & Hb1 & Hf1); [lia|].
  assert (b0 = true) by congruence; assert (b1 = false) by congruence.
  subst b0 b1.
  pose proof (np_count_mixed _ _ _ Hb0 Hb1) as B; rewrite L in B.
  unfold success_fraction.
  assert (P : 0 < inject_Z (N_SLOTS_YEAR g))
    by (rewrite <- (Zlt_Qlt 0); lia).
  split.
  - apply Qlt_shift_div_l; [exact P|].
    rewrite Qmult_0_l; rewrite <- (Zlt_Qlt 0); lia.
  - apply Qlt_shift_div_r; [exact P|].
    rewrite Qmult_1_l; rewrite <- Zlt_Qlt; lia.
Qed.

End YearFlags.

(** C3. For every portfolio size and every state of the generator, the
    loop of [simulate_year] is the loop of [simulate_year_with_tracking]
    with the histories left out: after any number of slots the two hold
    the same charges, the same success count and the same generator.
    Hence the flag computed in each slot of [simulate_year] is the one
    recorded in [success_history], and the rate that [simulate_year]
    compares with [MIN_SUCCESS_RATE] is the recorded [success_rate]. *)
Theorem year_variants_agree {G : Type} `{RandomState G} (g : Globals)
  (n_assets : Z) (r : G) :
  (forall k st r0,
      for_range k (year_slot g) (forget_history st) r0
      = on_value forget_history (for_range k (tracking_slot g) st r0)) /\
  simulate_year g n_assets r
  = on_value (fun res => Qle_bool (MIN_SUCCESS_RATE g) (success_rate res))
      (simulate_year_with_tracking g n_assets r) /\
  match simulate_year_with_tracking g n_assets r with
  | Ok (res, _) =>
      exists raw r0,
        np_random_normal (SOC_MEAN g) (SOC_STD g) n_assets r = Ok (raw, r0) /\
        length (success_history res) = Z.to_nat (N_SLOTS_YEAR g) /\
        success_rate res = success_fraction g (success_history res) /\
        forall t, (t < Z.to_nat (N_SLOTS_YEAR g))%nat ->
          exists b,
            nth_error (success_history res) t = Some b /\
            year_slot_flag g (np_clip_min raw 0) r0 t = Ok b
  | Raise _ => True
  end.
Proof.
  split; [intros k st r0; apply year_loop_forgets|].
  split; [apply simulate_year_run|].
  destruct (simulate_year_with_tracking g n_assets r) as [[res r']|e] eqn:E;
    [|exact I].
  pose proof (simulate_year_with_tracking_run g n_assets r) as R.
  destruct (np_random_normal (SOC_MEAN g) (SOC_STD g) n_assets r)
    as [[raw r0]|e] eqn:E0; [|congruence].
  exists raw, r0.
  destruct (tracking_year_flags g n_assets r raw r0 res r' E0 E)
    as (L & _ & Hrate & Fl).
  repeat split; assumption.
Qed.

(** C1 (as the code has it). For every portfolio size and every state of
    the generator, [simulate_year] returns a boolean: whether the fraction
    of successful slots of the year, a value of [[0, 1]], reaches
    [MIN_SUCCESS_RATE].  The fraction itself is not returned. *)
Theorem simulate_year_verdict {G : Type} `{RandomState G} (g : Globals)
  (n_assets : Z) (r : G) :
  match simulate_year_with_tracking g n_assets r with
  | Ok (res, r') =>
      let fraction := success_fraction g (success_history res) in
      0 <= fraction <= 1 /\
      simulate_year g n_assets r
      = Ok (Qle_bool (MIN_SUCCESS_RATE g) fraction, r')
  | Raise e => simulate_year g n_assets r = Raise e
  end.
Proof.
  rewrite simulate_year_run.
  destruct (simulate_year_with_tracking g n_assets r) as [[res r']|e] eqn:E;
    [|reflexivity].
  pose proof (simulate_year_with_tracking_run g n_assets r) as R.
  destruct (np_random_normal (SOC_MEAN g) (SOC_STD g) n_assets r)
    as [[raw r0]|e] eqn:E0; [|congruence].
  destruct (tracking_year_flags g n_assets r raw r0 res r' E0 E)
    as (L & N0 & Hrate & _).
  simpl; split.
  - now apply success_fraction_range.
  - now rewrite Hrate.
Qed.

Lemma vpp6_power_std : 0 <= POWER_STD vpp6.
Proof. discriminate. Qed.

(** C1, refuted as stated.  A hundred assets at their mean power (10 MW in
    all) and mean charge, all available in the first slot and none later:
    the first slot succeeds, the second fails, so the fraction of
    successful slots lies strictly between 0 and 1, and the value returned
    by [simulate_year], a boolean, is not that fraction. *)
Lemma simulate_year_not_fraction :
  exists b r' res,
    simulate_year vpp6 100 (available_until 400) = Ok (b, r') /\
    simulate_year_with_tracking vpp6 100 (available_until 400)
      = Ok (res, r') /\
    ~ py_number_of_bool b == success_fraction vpp6 (success_history res).
Proof.
  edestruct (mixed_year_fraction vpp6 100 (available_until 400))
    as (res & r' & E & Lo & Hi).
  - vm_compute; reflexivity.
  - exact vpp6_power_std.
  - vm_compute; discriminate.
  - vm_compute; reflexivity.
  - vm_compute; reflexivity.
  - exists (Qle_bool (MIN_SUCCESS_RATE vpp6) (success_rate res)), r', res.
    split; [now rewrite simulate_year_run, E|].
    split; [exact E|].
    destruct (Qle_bool (MIN_SUCCESS_RATE vpp6) (success_rate res)); simpl;
      intros Q; rewrite <- Q in Lo, Hi;
      [now apply Qlt_irrefl in Hi | now apply Qlt_irrefl in Lo].
Qed.

(** ** The configuration *)

Lemma exec_module_vpp6 : exec_module vpp6_settings = Ok vpp6.
Proof. reflexivity. Qed.

(** C4 (as the code has it). Running the module's constants validates
    nothing: the only availability probability reported is 1, and it is
    reported as the [ZeroDivisionError] of the recharge-rate division at
    load time; every other value, inside (0,1) or not, is accepted and a
    recharge rate is derived from it. *)
Theorem exec_module_outcome (s : Settings) :
  (P_AVAILABLE_FCR s == 1 /\ exec_module s = Raise ZeroDivisionError)
  \/
  (~ P_AVAILABLE_FCR s == 1 /\
   exec_module s =
   Ok {| settings := s;
         SOC_RECHARGE_RATE :=
           (SOC_DEGRADATION_PER_USE s * P_AVAILABLE_FCR s
            + TARGET_NET_BALANCE s) / (1 - P_AVAILABLE_FCR s) |}).
Proof.
  unfold exec_module, py_div.
  destruct (Qeq_bool (1 - P_AVAILABLE_FCR s) 0) eqn:E.
  - left; split; [|reflexivity].
    apply Qeq_bool_iff in E; lra.
  - right; split; [|reflexivity].
    intros P1; assert (Z : 1 - P_AVAILABLE_FCR s == 0) by lra.
    apply Qeq_bool_iff in Z; congruence.
Qed.

(** C4, refuted as stated.  An availability probability of 1.5 lies
    outside (0,1); the module loads without any error, with a negative
    recharge rate, and a slot is then simulated without any error. *)
Lemma availability_not_validated :
  ~ (0 < P_AVAILABLE_FCR (with_availability (3 # 2)) /\
     P_AVAILABLE_FCR (with_availability (3 # 2)) < 1) /\
  exists g,
    exec_module (with_availability (3 # 2)) = Ok g /\
    SOC_RECHARGE_RATE g < 0 /\
    exists out, simulate_fcr_slot g [600] (available_until 0) = Ok out.
Proof.
  split.
  - intros [_ L]; revert L; apply Qle_not_lt; discriminate.
  - eexists; split; [reflexivity|]; split; [reflexivity|].
    eexists; vm_compute; reflexivity.
Qed.

(** ** The empty portfolio *)

Section EmptyPortfolio.

Context {G : Type} `{RandomState G}.
Variable g : Globals.
Hypothesis required_power_positive : 0 < REQUIRED_POWER g.
Hypothesis power_std_nonneg : 0 <= POWER_STD g.

Lemma simulate_fcr_slot_empty (r : G) :
  simulate_fcr_slot g [] r = Ok (false, [], [], [], r).
Proof.
  destruct (simulate_fcr_slot_run g [] r)
    as [[Hneg _]|(zs & us & r1 & r2 & Ez & Eu & Lz & Lu & E)]; [lra|].
  destruct zs; [|discriminate]; destruct us; [|discriminate].
  simpl in Ez, Eu; unfold ret in Ez, Eu.
  injection Ez as <-; injection Eu as <-.
  cbv zeta in E; rewrite E; simpl.
  replace (Qle_bool (REQUIRED_POWER g) (np_sum [])) with false; [reflexivity|].
  symmetry; apply not_true_iff_false; intros L.
  apply Qle_bool_iff in L; unfold np_sum in L; simpl in L; lra.
Qed.

Lemma tracking_loop_empty n c h (r : G) :
  exists h',
    for_range n (tracking_slot g) ([], c, h) r = Ok ([], c, h', r) /\
    success_history h' = success_history h ++ repeat false n.
Proof.
  revert h; induction n as [|n IH]; intros h; cbn [for_range].
  - exists h; split; [reflexivity | now rewrite app_nil_r].
  - pose proof (tracking_slot_run g [] c h r) as R.
    rewrite simulate_fcr_slot_empty in R; destruct R as (_ & _ & _ & R).
    rewrite (bind_Ok _ _ _ _ _ R).
    match type of R with _ = Ok (_, _, ?h1, _) => destruct (IH h1) as (h' & E & S) end.
    exists h'; split; [exact E|].
    rewrite S; simpl; now rewrite <- app_assoc.
Qed.

End EmptyPortfolio.

Lemma np_count_repeat_false n : np_count (repeat false n) = 0%Z.
Proof. unfold np_count; induction n; simpl; auto. Qed.

(** C9. A portfolio of size 0 is handled by the empty sum being zero: with
    a positive required power the slot simulator, on the empty charge
    vector, draws nothing and returns success false with empty masks; the
    tracking year simulator completes with every slot failed and a success
    rate of 0, and [simulate_year] completes with the verdict of the rate
    0.  No division by zero occurs (the rate divides by the slot count,
    taken nonzero, not by the portfolio size). *)
Theorem empty_portfolio {G : Type} `{RandomState G} (g : Globals) (r : G) :
  0 < REQUIRED_POWER g ->
  0 <= POWER_STD g ->
  0 <= SOC_STD g ->
  N_SLOTS_YEAR g <> 0%Z ->
  simulate_fcr_slot g [] r = Ok (false, [], [], [], r) /\
  (exists res,
      simulate_year_with_tracking g 0 r = Ok (res, r) /\
      success_history res = repeat false (Z.to_nat (N_SLOTS_YEAR g)) /\
      success_rate res == 0) /\
  (exists verdict,
      simulate_year g 0 r = Ok (verdict, r) /\
      (verdict = true <-> MIN_SUCCESS_RATE g <= 0)).
Proof.
  intros Hreq Hstd Hsoc N0.
  split; [now apply simulate_fcr_slot_empty|].
  assert (E0 : np_random_normal (SOC_MEAN g) (SOC_STD g) 0 r = Ok ([], r)).
  { destruct (np_random_normal_run (SOC_MEAN g) (SOC_STD g) 0 r)
      as [[[Hneg|Hneg] _]|(_ & _ & zs & r' & L & E)]; [lra|lia|].
    unfold np_random_normal in *.
    destruct (Qlt_bool (SOC_STD g) 0); [discriminate|reflexivity]. }
  pose proof (simulate_year_with_tracking_run g 0 r) as R.
  rewrite E0 in R; cbv zeta in R.
  destruct (tracking_loop_empty g Hreq Hstd (Z.to_nat (N_SLOTS_YEAR g)) 0%Z
              (initial_history (np_clip_min [] 0)) r) as (h' & E & S).
  change (np_clip_min [] 0) with (@nil Q) in *.
  rewrite E in R; destruct R as (_ & _ & R).
  assert (D : py_div (inject_Z 0) (inject_Z (N_SLOTS_YEAR g))
              = Ok (inject_Z 0 / inject_Z (N_SLOTS_YEAR g))).
  { unfold py_div.
    destruct (Qeq_bool (inject_Z (N_SLOTS_YEAR g)) 0) eqn:Z; [|reflexivity].
    apply Qeq_bool_iff in Z; unfold Qeq in Z; simpl in Z; lia. }
  rewrite D in R.
  assert (Z : inject_Z 0 / inject_Z (N_SLOTS_YEAR g) == 0)
    by (unfold Qdiv; apply Qmult_0_l).
  split.
  - eexists; split; [exact R|]; split; [exact S | exact Z].
  - eexists; split; [rewrite simulate_year_run, R; reflexivity|].
    simpl; rewrite Qle_bool_iff, Z; reflexivity.
Qed.

Lemma empty_portfolio_witness :
  simulate_fcr_slot vpp6 [] (available_until 0)
  = Ok (false, [], [], [], available_until 0) /\
  (exists res,
      simulate_year_with_tracking vpp6 0 (available_until 0)
      = Ok (res, available_until 0) /\
      success_history res = repeat false (Z.to_nat (N_SLOTS_YEAR vpp6)) /\
      success_rate res == 0) /\
  (exists verdict,
      simulate_year vpp6 0 (available_until 0)
      = Ok (verdict, available_until 0) /\
      (verdict = true <-> MIN_SUCCESS_RATE vpp6 <= 0)).
Proof.
  apply (empty_portfolio vpp6 (available_until 0));
    [reflexivity | discriminate | discriminate | discriminate].
Defined.

(** ** What the tracking simulator records for a slot *)

Section RecordedSlot.

Context {G : Type} `{RandomState G}.
Variable g : Globals.

(** Slot [t] of a tracked year: the charges it starts from are row [t] of
    [soc_history], the charges it leaves are row [t + 1], and the entry of
    [soc_ok_history] counts the assets whose charge it leaves covers the
    energy of the powers it drew. *)
Lemma tracking_year_slot n_assets (r : G) raw r0 res r' t :
  np_random_normal (SOC_MEAN g) (SOC_STD g) n_assets r = Ok (raw, r0) ->
  simulate_year_with_tracking g n_assets r = Ok (res, r') ->
  (t < Z.to_nat (N_SLOTS_YEAR g))%nat ->
  exists socs_t c_t h_t r_t success can_provide available powers r_t',
    for_range t (tracking_slot g)
      (np_clip_min raw 0, 0%Z, initial_history (np_clip_min raw 0)) r0
      = Ok (socs_t, c_t, h_t, r_t) /\
    nth_error (soc_history res) t = Some socs_t /\
    simulate_fcr_slot g socs_t r_t
      = Ok (success, can_provide, available, powers, r_t') /\
    let socs_t' := zip_with (updated g) socs_t can_provide in
    update_soc g socs_t powers can_provide = Ok socs_t' /\
    nth_error (soc_history res) (S t) = Some socs_t' /\
    nth_error (soc_ok_history res) t
      = Some (count_sufficient socs_t' (np_scale powers (ENERGY_HOURS g))).
Proof.
  intros E0 Eres Ht.
  pose proof (simulate_year_with_tracking_run g n_assets r) as R.
  rewrite E0 in R; cbv zeta in R.
  destruct (for_range _ _ _ r0) as [[[[socs c] h] r1]|e] eqn:E;
    [|congruence].
  destruct R as (_ & _ & R); rewrite R in Eres.
  destruct (py_div (inject_Z c) (inject_Z (N_SLOTS_YEAR g))) as [rate|e];
    [|discriminate].
  injection Eres as <- <-; simpl.
  destruct (tracking_loop_slot g _ _ _ _ _ _ _ _ _ t E Ht)
    as (socs_t & c_t & h_t & r_t & b & can & av & pw & r_t' & Et & Es
        & Eu & Hs & _ & Hk).
  exists socs_t, c_t, h_t, r_t, b, can, av, pw, r_t'.
  repeat split; try assumption.
  destruct t as [|t1].
  - cbn [for_range] in Et; unfold ret in Et; injection Et as <- _ _ _.
    pose proof (tracking_loop_extends _ _ _ _ _ _ _ _ _ _ E) as (X & _).
    eapply appended_nth_error; [exact X | reflexivity].
  - destruct (tracking_loop_slot g _ _ _ _ _ _ _ _ _ t1 E)
      as (s1 & c1 & h1 & q1 & b1 & can1 & av1 & pw1 & q1' & Et1 & Es1
          & _ & Hs1 & _); [lia|].
    rewrite for_range_succ_r, (bind_Ok _ _ _ _ _ Et1) in Et.
    pose proof (tracking_slot_run g s1 c1 h1 q1) as R1.
    rewrite Es1 in R1; destruct R1 as (_ & _ & _ & R1).
    rewrite R1 in Et; injection Et as <- _ _ _.
    exact Hs1.
Qed.

(** The first slot of a year, from the draw of the initial charges. *)
Lemma tracking_first_slot n_assets (r : G) raw r0 success can_provide
  available powers r1 :
  np_random_normal (SOC_MEAN g) (SOC_STD g) n_assets r = Ok (raw, r0) ->
  0 <= POWER_STD g ->
  (1 <= N_SLOTS_YEAR g)%Z ->
  simulate_fcr_slot g (np_clip_min raw 0) r0
    = Ok (success, can_provide, available, powers, r1) ->
  exists res r',
    simulate_year_with_tracking g n_assets r = Ok (res, r') /\
    nth_error (soc_history res) 0 = Some (np_clip_min raw 0) /\
    nth_error (soc_ok_history res) 0
      = Some (count_sufficient
                (zip_with (updated g) (np_clip_min raw 0) can_provide)
                (np_scale powers (ENERGY_HOURS g))).
Proof.
  intros E0 Hstd N1 Es.
  destruct (simulate_year_with_tracking_total g n_assets r raw r0 E0 Hstd)
    as (res & r' & E); [lia|].
  exists res, r'; split; [exact E|].
  destruct (tracking_year_slot n_assets r raw r0 res r' 0%nat E0 E)
    as (socs_t & c_t & h_t & r_t & b & can & av & pw & r_t' & Et & Hs & Es'
        & _ & _ & Hk); [lia|].
  cbn [for_range] in Et; unfold ret in Et; injection Et as <- _ _ <-.
  rewrite Es in Es'; injection Es' as <- <- <- <- <-.
  now split.
Qed.

End RecordedSlot.

(** C10. In [simulate_year_with_tracking] the entry of [soc_ok_history]
    for slot [t] counts the assets whose charge AFTER the update of slot
    [t] (row [t + 1] of [soc_history]) covers the energy of the powers
    drawn in slot [t]; the can-deliver decision of the slot used the
    charges before the update (row [t]).  The two counts can differ: one
    asset holding exactly the 400 kWh of its slot delivers, and is
    recorded as not having enough charge. *)
Theorem soc_ok_recorded_after_update :
  (forall (G : Type) (RS : RandomState G) (g : Globals) (n_assets : Z)
          (r : G),
      match simulate_year_with_tracking g n_assets r with
      | Ok (res, _) =>
          exists raw r0,
            np_random_normal (SOC_MEAN g) (SOC_STD g) n_assets r
              = Ok (raw, r0) /\
            forall t, (t < Z.to_nat (N_SLOTS_YEAR g))%nat ->
              exists socs_t c_t h_t r_t success can_provide available powers
                     r_t' socs_t',
                for_range t (tracking_slot g)
                  (np_clip_min raw 0, 0%Z,
                   initial_history (np_clip_min raw 0)) r0
                  = Ok (socs_t, c_t, h_t, r_t) /\
                nth_error (soc_history res) t = Some socs_t /\
                simulate_fcr_slot g socs_t r_t
                  = Ok (success, can_provide, available, powers, r_t') /\
                update_soc g socs_t powers can_provide = Ok socs_t' /\
                nth_error (soc_history res) (S t) = Some socs_t' /\
                nth_error (soc_ok_history res) t
                  = Some (count_sufficient socs_t'
                            (np_scale powers (ENERGY_HOURS g)))
      | Raise _ => True
      end)
  /\
  (exists res r' socs_0 r_0 success available powers r_0',
      simulate_year_with_tracking vpp6 1 low_charge = Ok (res, r') /\
      nth_error (soc_history res) 0 = Some socs_0 /\
      simulate_fcr_slot vpp6 socs_0 r_0
        = Ok (success, [true], available, powers, r_0') /\
      count_sufficient socs_0 (np_scale powers (ENERGY_HOURS vpp6)) = 1%Z /\
      nth_error (soc_ok_history res) 0 = Some 0%Z).
Proof.
  split.
  - intros G RS g n_assets r.
    destruct (simulate_year_with_tracking g n_assets r) as [[res r']|e] eqn:E;
      [|exact I].
    pose proof (simulate_year_with_tracking_run g n_assets r) as R.
    destruct (np_random_normal (SOC_MEAN g) (SOC_STD g) n_assets r)
      as [[raw r0]|e] eqn:E0; [|congruence].
    exists raw, r0; split; [reflexivity|]; intros t Ht.
    destruct (tracking_year_slot g n_assets r raw r0 res r' t E0 E Ht)
      as (socs_t & c_t & h_t & r_t & b & can & av & pw & r_t' & Et & Hs & Es
          & Eu & Hs' & Hk).
    exists socs_t, c_t, h_t, r_t, b, can, av, pw, r_t',
      (zip_with (updated g) socs_t can).
    repeat split; assumption.
  - assert (E0 : np_random_normal (SOC_MEAN vpp6) (SOC_STD vpp6) 1 low_charge
                 = Ok ([400], advance low_charge))
      by (vm_compute; reflexivity).
    assert (Es : simulate_fcr_slot vpp6 (np_clip_min [400] 0)
                   (advance low_charge)
                 = Ok (false, [true], [true], [100],
                       advance (advance (advance low_charge))))
      by (vm_compute; reflexivity).
    assert (N1 : (1 <= N_SLOTS_YEAR vpp6)%Z) by (vm_compute; discriminate).
    destruct (tracking_first_slot vpp6 1 low_charge _ _ _ _ _ _ _
                E0 vpp6_power_std N1 Es) as (res & r' & E & Hs & Hk).
    exists res, r', (np_clip_min [400] 0), (advance low_charge), false,
      [true], [100], (advance (advance (advance low_charge))).
    split; [exact E|]; split; [exact Hs|]; split; [exact Es|].
    split; [reflexivity|].
    rewrite Hk; reflexivity.
Qed.

(** ** The capacity search *)

Lemma py_range_ascending n_min n_max step :
  (0 < step)%Z ->
  exists k,
    py_range n_min (n_max + 1) step = Ok (first_candidates n_min step k) /\
    forall i, (i < k)%nat <-> (candidate n_min step i <= n_max)%Z.
Proof.
  intros Hs; unfold py_range, candidate.
  destruct (Z.eqb_spec step 0) as [|_]; [lia|].
  destruct (Z.ltb_spec 0 step) as [_|]; [|lia].
  destruct (Z.ltb_spec n_min (n_max + 1)) as [Hle|Hgt].
  - eexists; split; [reflexivity|]; intros i.
    replace (n_max + 1 - n_min - 1)%Z with (n_max - n_min)%Z by lia.
    pose proof (Z.mul_div_le (n_max - n_min) step Hs) as D1.
    pose proof (Z.div_pos (n_max - n_min) step) as D0.
    split; intros Hi.
    + assert (Z.of_nat i <= (n_max - n_min) / step)%Z by lia; nia.
    + assert (Z.of_nat i <= (n_max - n_min) / step)%Z
        by (apply Z.div_le_lower_bound; lia).
      lia.
  - exists 0%nat; split; [reflexivity|]; intros i; split; [lia | nia].
Qed.

Lemma candidates_split (f : nat -> Z) pre n post :
  forall start k,
    map f (seq start k) = pre ++ n :: post ->
    pre = map f (seq start (length pre)) /\
    n = f (start + length pre)%nat /\
    (length pre < k)%nat.
Proof.
  induction pre as [|a pre IH]; intros start [|k]; simpl; try discriminate.
  - intros [= <- _]; rewrite Nat.add_0_r; repeat split; lia.
  - intros [= <- E]; destruct (IH _ _ E) as (P & N & L).
    rewrite <- P, N; repeat split; [f_equal; lia | lia].
Qed.

Section CapacitySearch.

Context {G : Type} `{RandomState G}.
Variable g : Globals.

(** The scan, read off its result: the sizes before the one returned
    were estimated in turn below the target; with nothing returned, all
    were. *)
Lemma scan_run target sizes (r : G) :
  match scan g target sizes r with
  | Ok (Some (n, capacity, oversizing, prob), r') =>
      exists pre post probs r1,
        sizes = pre ++ n :: post /\
        estimates g pre r = Ok (probs, r1) /\
        Forall (fun q => q < target) probs /\
        annual_success_probability g n 100 r1 = Ok (prob, r') /\
        target <= prob /\
        capacity = inject_Z n * POWER_MEAN g /\
        oversizing = capacity / REQUIRED_POWER g
  | Ok (None, r') =>
      exists probs,
        estimates g sizes r = Ok (probs, r') /\
        length probs = length sizes /\
        Forall (fun q => q < target) probs
  | Raise _ => True
  end.
Proof.
  revert r; induction sizes as [|n rest IH]; intros r; cbn [scan].
  - exists []; repeat split; constructor.
  - destruct (annual_success_probability g n 100 r) as [[p r1]|e] eqn:Ep;
      [rewrite (bind_Ok _ _ _ _ _ Ep) | now rewrite (bind_Raise _ _ _ _ Ep)].
    cbv zeta; rewrite bind_lift.
    destruct (py_div (installed_capacity g n) (REQUIRED_POWER g))
      as [ov|e] eqn:Ed; [|exact I].
    apply py_div_Ok in Ed as (_ & ->).
    destruct (Qle_bool target p) eqn:Et.
    + unfold ret; exists [], rest, [], r.
      apply Qle_bool_iff in Et; repeat split; try assumption; constructor.
    + assert (Lt : p < target).
      { apply Qnot_le_lt; intros L; apply Qle_bool_iff in L; congruence. }
      specialize (IH r1).
      destruct (scan g target rest r1) as [[[[[[m cap] ov] q]|] r2]|e];
        [| |exact I].
      * destruct IH as (pre & post & probs & r3 & -> & Ee & Fa & Ea & Le
                        & -> & ->).
        exists (n :: pre), post, (p :: probs), r3.
        repeat split; try assumption; [|now constructor].
        cbn [estimates]; rewrite (bind_Ok _ _ _ _ _ Ep).
        now rewrite (bind_Ok _ _ _ _ _ Ee).
      * destruct IH as (probs & Ee & L & Fa).
        exists (p :: probs); repeat split;
          [|simpl; now rewrite L | now constructor].
        cbn [estimates]; rewrite (bind_Ok _ _ _ _ _ Ep).
        now rewrite (bind_Ok _ _ _ _ _ Ee).
Qed.

Lemma estimates_length sizes (r : G) probs r' :
  estimates g sizes r = Ok (probs, r') -> length probs = length sizes.
Proof.
  revert r probs; induction sizes as [|n rest IH]; intros r probs;
    cbn [estimates].
  - unfold ret; now intros [= <- _].
  - unfold bind.
    destruct (annual_success_probability g n 100 r) as [[p r1]|e];
      [|discriminate].
    destruct (estimates g rest r1) as [[ps r2]|e] eqn:E; [|discriminate].
    unfold ret; intros [= <- <-]; simpl; f_equal.
    now apply (IH r1).
Qed.

Hypothesis power_std_nonneg : 0 <= POWER_STD g.
Hypothesis soc_std_nonneg : 0 <= SOC_STD g.
Hypothesis slots_nonzero : N_SLOTS_YEAR g <> 0%Z.

Lemma simulate_year_total n_assets (r : G) :
  (0 <= n_assets)%Z ->
  exists verdict r', simulate_year g n_assets r = Ok (verdict, r').
Proof.
  intros Hn.
  destruct (np_random_normal_run (SOC_MEAN g) (SOC_STD g) n_assets r)
    as [[[Hneg|Hneg] _]|(_ & _ & zs & r0 & _ & E0)]; [lra|lia|].
  destruct (simulate_year_with_tracking_total g n_assets r _ r0 E0
              power_std_nonneg slots_nonzero) as (res & r' & E).
  rewrite simulate_year_run, E; simpl; eauto.
Qed.

Lemma annual_success_probability_total n_assets n_trials (r : G) :
  (0 <= n_assets)%Z -> n_trials <> 0%Z ->
  exists prob r',
    annual_success_probability g n_assets n_trials r = Ok (prob, r').
Proof.
  intros Hn Ht; unfold annual_success_probability.
  assert (L : forall k c r0, exists c' r',
             for_range k
               (fun successes : Z =>
                  ok <- simulate_year g n_assets ;;
                  ret (if ok : bool then (successes + 1)%Z else successes))
               c r0 = Ok (c', r')).
  { induction k as [|k IH]; intros c r0; cbn [for_range].
    - now exists c, r0.
    - destruct (simulate_year_total n_assets r0 Hn) as (b & r1 & E).
      rewrite (bind_Ok _ _ _ _ _
                 (bind_Ok _ (fun ok => ret _) _ _ _ E)).
      apply IH. }
  destruct (L (Z.to_nat n_trials) 0%Z r) as (c & r' & E).
  rewrite (bind_Ok _ _ _ _ _ E); unfold lift, py_div.
  destruct (Qeq_bool (inject_Z n_trials) 0) eqn:D; [|eauto].
  apply Qeq_bool_iff in D; unfold Qeq in D; simpl in D; lia.
Qed.

Lemma diagnostic_slot_total n_assets (r : G) :
  (0 < n_assets)%Z -> exists r', diagnostic_slot g n_assets r = Ok (tt, r').
Proof.
  intros Hn; unfold diagnostic_slot.
  destruct (np_random_normal_run (SOC_MEAN g) (SOC_STD g) n_assets r)
    as [[[Hneg|Hneg] _]|(_ & _ & zs & r0 & Lz & E0)]; [lra|lia|].
  rewrite (bind_Ok _ _ _ _ _ E0); cbv zeta.
  destruct (np_random_normal_run (POWER_MEAN g) (POWER_STD g) n_assets r0)
    as [[[Hneg|Hneg] _]|(_ & _ & ps & r1 & _ & E1)]; [lra|lia|].
  rewrite (bind_Ok _ _ _ _ _ E1); cbv zeta.
  destruct zs as [|z zs]; [simpl in Lz; lia|].
  rewrite bind_lift; simpl.
  unfold np_random_random.
  destruct (Z.ltb_spec n_assets 0) as [|_]; [lia|].
  destruct (draws_total random_sample (Z.to_nat n_assets) r1)
    as (us & r2 & Eu & _).
  rewrite (bind_Ok _ _ _ _ _ Eu); unfold ret; eauto.
Qed.

Lemma scan_total target sizes (r : G) :
  ~ REQUIRED_POWER g == 0 ->
  Forall (fun n => 0 <= n)%Z sizes ->
  exists found r', scan g target sizes r = Ok (found, r').
Proof.
  intros Hreq Hs; revert r; induction Hs as [|n rest Hn Hrest IH]; intros r;
    cbn [scan].
  - unfold ret; eauto.
  - destruct (annual_success_probability_total n 100 r Hn)
      as (p & r1 & Ep); [discriminate|].
    rewrite (bind_Ok _ _ _ _ _ Ep); cbv zeta; rewrite bind_lift.
    unfold py_div.
    destruct (Qeq_bool (REQUIRED_POWER g) 0) eqn:D;
      [apply Qeq_bool_iff in D; contradiction|].
    destruct (Qle_bool target p); [unfold ret; eauto | apply IH].
Qed.

End CapacitySearch.

(** C2. For positive [n_min] and [step] (and a configuration the year
    simulator accepts), [find_min_assets_annual] returns.  What it returns
    is the first size, in the ascending order [n_min], [n_min + step], ...
    up to [n_max], whose estimate reaches the target: the sizes before it
    were estimated in turn, in the same run of the generator, all below
    the target.  With it come the installed capacity (size times
    [POWER_MEAN]), the oversizing ratio (capacity over [REQUIRED_POWER])
    and the estimate.  When every size up to [n_max] was estimated below
    the target, it returns [None]. *)
Theorem find_min_assets_annual_first {G : Type} `{RandomState G}
  (g : Globals) (confidence_target : Q) (n_min n_max step : Z) (r : G) :
  ~ REQUIRED_POWER g == 0 ->
  0 <= POWER_STD g ->
  0 <= SOC_STD g ->
  N_SLOTS_YEAR g <> 0%Z ->
  (0 < n_min)%Z ->
  (0 < step)%Z ->
  exists r0 found r',
    diagnostic_slot g n_min r = Ok (tt, r0) /\
    find_min_assets_annual g confidence_target n_min n_max step r
      = Ok (found, r') /\
    match found with
    | Some (n_assets, capacity, oversizing, prob) =>
        exists k probs r1,
          n_assets = candidate n_min step k /\
          (n_assets <= n_max)%Z /\
          estimates g (first_candidates n_min step k) r0 = Ok (probs, r1) /\
          length probs = k /\
          Forall (fun q => q < confidence_target) probs /\
          annual_success_probability g n_assets 100 r1 = Ok (prob, r') /\
          confidence_target <= prob /\
          capacity = inject_Z n_assets * POWER_MEAN g /\
          oversizing = capacity / REQUIRED_POWER g
    | None =>
        exists k probs,
          (forall i, (i < k)%nat <-> (candidate n_min step i <= n_max)%Z) /\
          estimates g (first_candidates n_min step k) r0 = Ok (probs, r') /\
          length probs = k /\
          Forall (fun q => q < confidence_target) probs
    end.
Proof.
  intros Hreq Hstd Hsoc N0 Hmin Hstep.
  destruct (diagnostic_slot_total g Hstd Hsoc n_min r Hmin) as (r0 & Ed).
  destruct (py_range_ascending n_min n_max step Hstep) as (k & Er & Hk).
  assert (Pos : Forall (fun n => 0 <= n)%Z (first_candidates n_min step k)).
  { apply Forall_forall; intros n Hn.
    apply in_map_iff in Hn as (i & <- & _); unfold candidate; nia. }
  destruct (scan_total g Hstd Hsoc N0 confidence_target _ r0 Hreq Pos)
    as (found & r' & Es).
  exists r0, found, r'; split; [exact Ed|].
  assert (Ef : find_min_assets_annual g confidence_target n_min n_max step r
               = Ok (found, r')).
  { unfold find_min_assets_annual.
    rewrite (bind_Ok _ _ _ _ _ Ed), bind_lift, Er; exact Es. }
  split; [exact Ef|].
  pose proof (scan_run g confidence_target (first_candidates n_min step k) r0)
    as R.
  rewrite Es in R.
  destruct found as [[[[n cap] ov] p]|].
  - destruct R as (pre & post & probs & r1 & Sp & Ee & Fa & Ea & Le & -> & ->).
    apply candidates_split in Sp as (Pre & N & L).
    pose proof (estimates_length g _ _ _ _ Ee) as Lp.
    exists (length pre), probs, r1.
    fold (first_candidates n_min step (length pre)) in Pre.
    rewrite <- Pre; repeat split; try assumption.
    subst n; apply Hk; lia.
  - destruct R as (probs & Ee & L & Fa).
    exists k, probs; repeat split; try assumption; try apply Hk.
    rewrite L; unfold first_candidates; now rewrite length_map, length_seq.
Qed.

Lemma find_min_assets_annual_first_witness :
  exists r0 found r',
    diagnostic_slot vpp6 100 always_available = Ok (tt, r0) /\
    find_min_assets_annual vpp6 (95 # 100) 100 400 10 always_available
      = Ok (found, r') /\
    match found with
    | Some (n_assets, capacity, oversizing, prob) =>
        exists k probs r1,
          n_assets = candidate 100 10 k /\
          (n_assets <= 400)%Z /\
          estimates vpp6 (first_candidates 100 10 k) r0 = Ok (probs, r1) /\
          length probs = k /\
          Forall (fun q => q < 95 # 100) probs /\
          annual_success_probability vpp6 n_assets 100 r1 = Ok (prob, r') /\
          95 # 100 <= prob /\
          capacity = inject_Z n_assets * POWER_MEAN vpp6 /\
          oversizing = capacity / REQUIRED_POWER vpp6
    | None =>
        exists k probs,
          (forall i, (i < k)%nat <-> (candidate 100 10 i <= 400)%Z) /\
          estimates vpp6 (first_candidates 100 10 k) r0 = Ok (probs, r') /\
          length probs = k /\
          Forall (fun q => q < 95 # 100) probs
    end.
Proof.
  apply (find_min_assets_annual_first vpp6 (95 # 100) 100 400 10
           always_available);
    [discriminate | discriminate | discriminate | discriminate
    | reflexivity | reflexivity].
Defined.

(** A search run to its end: on the small market one asset never delivers
    the 200 kW and two always do, so the scan from 1 returns 2, with a
    capacity of 200 kW, an oversizing of 200/200 and an estimate of
    100/100. *)
Example find_min_assets_annual_small :
  exists r',
    find_min_assets_annual small_market 1 1 3 1 always_available
    = Ok (Some (2%Z, 200, 200 # 200, 100 # 100), r') /\
    candidate 1 1 1 = 2%Z.
Proof.
  eexists; split; [vm_compute; reflexivity | reflexivity].
Qed.

(** Exact equality counts as success: a hundred available assets of
    100 kW deliver exactly the 10 000 kW required. *)
Example simulate_fcr_slot_exact_requirement :
  exists r',
    simulate_fcr_slot vpp6 (repeat 600 100) always_available
    = Ok (true, repeat true 100, repeat true 100, repeat 100 100, r') /\
    deliverable_power (repeat 100 100) (repeat true 100)
    == REQUIRED_POWER vpp6.
Proof.
  eexists; split; vm_compute; reflexivity.
Qed.

(** The clamp at work: a used asset holding less than the decrement of
    1.2 kWh ends at 0, not below. *)
Example update_soc_clamps :
  update_soc vpp6 [1 # 2; 600] [100; 100] [true; false]
  = Ok (zip_with (updated vpp6) [1 # 2; 600] [true; false]) /\
  nth_error (zip_with (updated vpp6) [1 # 2; 600] [true; false]) 0 = Some 0.
Proof. split; reflexivity. Qed.

Lemma Qlt_bool_false x y : y <= x -> Qlt_bool x y = false.
Proof.
  intros L; unfold Qlt_bool; apply negb_false_iff; now apply Qle_bool_iff.
Qed.

(** The search does not start from the empty portfolio: its diagnostic
    prints the minimum of the initial charges, which NumPy refuses for an
    empty array. *)
Remark find_min_assets_annual_from_zero {G : Type} `{RandomState G}
  (g : Globals) (confidence_target : Q) (n_max step : Z) (r : G) :
  0 <= SOC_STD g -> 0 <= POWER_STD g ->
  find_min_assets_annual g confidence_target 0 n_max step r
  = Raise ValueError.
Proof.
  intros Hsoc Hstd.
  unfold find_min_assets_annual, diagnostic_slot, np_random_normal.
  rewrite (Qlt_bool_false _ _ Hsoc), (Qlt_bool_false _ _ Hstd).
  reflexivity.
Qed.

(** * Further properties of the code *)

(** ** The derived recharge rate *)


(** X2. With a degradation rate and an availability that are not negative
    and a positive target balance, the derived recharge rate is positive
    for an availability below 1 and negative for one above 1. *)
Theorem recharge_rate_sign (s : Settings) (g : Globals) :
  0 <= SOC_DEGRADATION_PER_USE s ->
  0 <= P_AVAILABLE_FCR s ->
  0 < TARGET_NET_BALANCE s ->
  exec_module s = Ok g ->
  (P_AVAILABLE_FCR s < 1 -> 0 < SOC_RECHARGE_RATE g) /\
  (1 < P_AVAILABLE_FCR s -> SOC_RECHARGE_RATE g < 0).
Proof.
  intros Hd Hp Hb E; unfold exec_module, py_div in E.
  destruct (Qeq_bool (1 - P_AVAILABLE_FCR s) 0); [discriminate|].
  injection E as <-; simpl.
  assert (Num : 0 < SOC_DEGRADATION_PER_USE s * P_AVAILABLE_FCR s
                    + TARGET_NET_BALANCE s).
  { pose proof (Qmult_le_0_compat _ _ Hd Hp); lra. }
  split; intros L.
  - apply Qlt_shift_div_l; lra.
  - assert (Pos : 0 < (SOC_DEGRADATION_PER_USE s * P_AVAILABLE_FCR s
                       + TARGET_NET_BALANCE s) / (P_AVAILABLE_FCR s - 1))
      by (apply Qlt_shift_div_l; lra).
    assert (Opp : (SOC_DEGRADATION_PER_USE s * P_AVAILABLE_FCR s
                   + TARGET_NET_BALANCE s) / (1 - P_AVAILABLE_FCR s)
                  == - ((SOC_DEGRADATION_PER_USE s * P_AVAILABLE_FCR s
                         + TARGET_NET_BALANCE s) / (P_AVAILABLE_FCR s - 1)))
      by (field; split; lra).
    rewrite Opp; lra.
Qed.

Lemma recharge_rate_sign_witness :
  (P_AVAILABLE_FCR vpp6_settings < 1 -> 0 < SOC_RECHARGE_RATE vpp6) /\
  (1 < P_AVAILABLE_FCR vpp6_settings -> SOC_RECHARGE_RATE vpp6 < 0).
Proof.
  apply (recharge_rate_sign vpp6_settings vpp6);
    [discriminate | discriminate | reflexivity | reflexivity].
Defined.

(** ** The update rule, further *)



(** ** The slot simulator, further *)

Section SlotFacts.

Context {G : Type} `{RandomState G}.
Variable g : Globals.

(** The results of a slot, entry by entry. *)
Lemma simulate_fcr_slot_entries socs (r : G) success can available powers r' :
  simulate_fcr_slot g socs r = Ok (success, can, available, powers, r') ->
  length powers = length socs /\
  length available = length socs /\
  length can = length socs /\
  Forall (fun p => 20 <= p) powers /\
  forall i s p a,
    nth_error socs i = Some s ->
    nth_error powers i = Some p ->
    nth_error available i = Some a ->
    nth_error can i = Some (a && Qle_bool (p * ENERGY_HOURS g) s).
Proof.
  intros E.
  destruct (simulate_fcr_slot_run g socs r)
    as [[_ E']|(zs & us & r1 & r2 & _ & _ & Lz & Lu & E')]; [congruence|].
  cbv zeta in E'; rewrite E' in E; injection E as _ <- <- <- _.
  repeat split; try same_length.
  - apply np_clip_min_lower.
  - intros i s p a Hs Hp Ha.
    apply nth_error_zip_with; [exact Ha|].
    unfold np_scale.
    eapply (nth_error_zip_with (fun x y => Qle_bool y x)); [exact Hs|].
    exact (map_nth_error (fun x => x * ENERGY_HOURS g) _ _ Hp).
Qed.

End SlotFacts.

(** X5. Every power drawn for a slot is at least the technical floor of
    20 kW, and there is one per asset. *)
Theorem slot_powers_floor {G : Type} `{RandomState G} (g : Globals)
  (socs : list Q) (r : G) :
  match simulate_fcr_slot g socs r with
  | Ok (_, _, _, powers, _) =>
      length powers = length socs /\ Forall (fun p => 20 <= p) powers
  | Raise e => e = ValueError /\ POWER_STD g < 0
  end.
Proof.
  destruct (simulate_fcr_slot g socs r) as [[[[[b can] av] pw] r']|e] eqn:E.
  - destruct (simulate_fcr_slot_entries g _ _ _ _ _ _ _ E)
      as (Lp & _ & _ & Fl & _); now split.
  - destruct (simulate_fcr_slot_run g socs r)
      as [[Hstd E']|(zs & us & r1 & r2 & _ & _ & _ & _ & E')];
      cbv zeta in E'; rewrite E' in E; [|discriminate].
    injection E as <-; now split.
Qed.

(** X6. An asset can deliver in a slot exactly when it is available and its
    charge covers the power drawn for it during the whole slot. *)
Theorem can_deliver_iff {G : Type} `{RandomState G} (g : Globals)
  (socs : list Q) (r : G) :
  match simulate_fcr_slot g socs r with
  | Ok (_, can_provide, available, powers, _) =>
      forall i s p a,
        nth_error socs i = Some s ->
        nth_error powers i = Some p ->
        nth_error available i = Some a ->
        exists c,
          nth_error can_provide i = Some c /\
          (c = true <-> a = true /\ p * ENERGY_HOURS g <= s)
  | Raise e => e = ValueError /\ POWER_STD g < 0
  end.
Proof.
  destruct (simulate_fcr_slot g socs r) as [[[[[b can] av] pw] r']|e] eqn:E.
  - destruct (simulate_fcr_slot_entries g _ _ _ _ _ _ _ E)
      as (_ & _ & _ & _ & Hc).
    intros i s p a Hs Hp Ha; eexists; split; [eapply Hc; eassumption|].
    now rewrite andb_true_iff, Qle_bool_iff.
  - destruct (simulate_fcr_slot_run g socs r)
      as [[Hstd E']|(zs & us & r1 & r2 & _ & _ & _ & _ & E')];
      cbv zeta in E'; rewrite E' in E; [|discriminate].
    injection E as <-; now split.
Qed.

(** X7. An asset whose charge is below the energy of the floor power over a
    slot (20 kW x [ENERGY_HOURS]) never delivers, whatever is drawn. *)
Theorem low_charge_never_delivers {G : Type} `{RandomState G} (g : Globals)
  (socs : list Q) (r : G) success can_provide available powers r' i s :
  0 <= ENERGY_HOURS g ->
  simulate_fcr_slot g socs r
    = Ok (success, can_provide, available, powers, r') ->
  nth_error socs i = Some s ->
  s < 20 * ENERGY_HOURS g ->
  nth_error can_provide i = Some false.
Proof.
  intros He E Hs Hlow.
  destruct (simulate_fcr_slot_entries g _ _ _ _ _ _ _ E)
    as (Lp & La & _ & Fl & Hc).
  assert (Hi : (i < length socs)%nat) by (apply nth_error_Some; congruence).
  destruct (nth_error powers i) as [p|] eqn:Hp;
    [|apply nth_error_None in Hp; lia].
  destruct (nth_error available i) as [a|] eqn:Ha;
    [|apply nth_error_None in Ha; lia].
  rewrite (Hc i s p a Hs Hp Ha); f_equal.
  apply andb_false_iff; right.
  apply not_true_iff_false; intros L; apply Qle_bool_iff in L.
  assert (P20 : 20 <= p).
  { rewrite Forall_forall in Fl; apply Fl; eapply nth_error_In; eassumption. }
  assert (20 * ENERGY_HOURS g <= p * ENERGY_HOURS g)
    by (apply Qmult_le_compat_r; assumption).
  lra.
Qed.

Lemma low_charge_never_delivers_witness :
  simulate_fcr_slot vpp6 [79] always_available
  = Ok (false, [false], [true], [100], advance (advance always_available)) /\
  nth_error [false] 0 = Some false.
Proof.
  split; [reflexivity|].
  apply (low_charge_never_delivers vpp6 [79] always_available
           false [false] [true] [100] (advance (advance always_available))
           0 79);
    [discriminate | reflexivity | reflexivity | reflexivity].
Defined.

(** ** The tracked year, further *)

Section TrackedYear.

Context {G : Type} `{RandomState G}.
Variable g : Globals.

Lemma simulate_fcr_slot_flag socs (r : G) success can available powers r' :
  simulate_fcr_slot g socs r = Ok (success, can, available, powers, r') ->
  success = Qle_bool (REQUIRED_POWER g) (np_sum (select powers can)).
Proof.
  intros E.
  destruct (simulate_fcr_slot_run g socs r)
    as [[_ E']|(zs & us & r1 & r2 & _ & _ & _ & _ & E')]; [congruence|].
  cbv zeta in E'; rewrite E' in E; now injection E as <- <- _ <- _.
Qed.

Lemma count_within (mask : list bool) n :
  length mask = n -> (0 <= np_count mask <= Z.of_nat n)%Z.
Proof. intros <-; apply np_count_bounds. Qed.

Lemma tracking_slot_invariant n st (r : G) st' r' :
  tracking_slot g st r = Ok (st', r') ->
  year_invariant g n st -> year_invariant g n st'.
Proof.
  destruct st as [[socs c] h]; intros E.
  pose proof (tracking_slot_run g socs c h r) as R.
  destruct (simulate_fcr_slot g socs r) as [[[[[b can] av] pw] r1]|e] eqn:Es;
    [|destruct R as (_ & R); congruence].
  destruct R as (_ & Ls & _ & R); rewrite R in E; injection E as <- _.
  destruct (simulate_fcr_slot_entries g _ _ _ _ _ _ _ Es)
    as (Lp & La & Lc & _ & _).
  pose proof (simulate_fcr_slot_flag _ _ _ _ _ _ _ Es) as Fb.
  intros (I1 & I2 & I3 & I4 & I5 & I6 & I7 & I8 & I9); cbn in *.
  repeat split.
  - congruence.
  - apply Forall_app; split; [exact I2|].
    constructor; [|constructor].
    split; [congruence | apply Forall_zip_with_updated].
  - rewrite !length_app; simpl; lia.
  - rewrite !length_app; simpl; lia.
  - rewrite !length_app; simpl; lia.
  - rewrite !length_app; simpl; lia.
  - apply Forall2_app; [exact I7|].
    constructor; [|constructor]; rewrite Fb; apply Qle_bool_iff.
  - apply Forall_app; split; [exact I8|].
    constructor; [|constructor]; apply count_within; congruence.
  - apply Forall_app; split; [exact I9|].
    constructor; [|constructor]; apply count_within.
    rewrite length_zip_with; [congruence|].
    unfold np_scale; rewrite length_map; congruence.
Qed.

Lemma tracking_loop_invariant n k st (r : G) st' r' :
  for_range k (tracking_slot g) st r = Ok (st', r') ->
  year_invariant g n st -> year_invariant g n st'.
Proof.
  revert st r; induction k as [|k IH]; intros st r; cbn [for_range].
  - unfold ret; now intros [= <- _].
  - unfold bind.
    destruct (tracking_slot g st r) as [[st1 r1]|e] eqn:E1; [|easy].
    intros E I; eapply IH; [exact E|].
    eapply tracking_slot_invariant; eassumption.
Qed.

(** What a tracked year returns satisfies the invariant of its loop. *)
Lemma tracking_year_invariant n_assets (r : G) res r' :
  simulate_year_with_tracking g n_assets r = Ok (res, r') ->
  (0 <= n_assets)%Z /\
  length (success_history res) = Z.to_nat (N_SLOTS_YEAR g) /\
  exists socs c,
    year_invariant g (Z.to_nat n_assets) (socs, c, history res).
Proof.
  intros Eres.
  pose proof (simulate_year_with_tracking_run g n_assets r) as R.
  destruct (np_random_normal_run (SOC_MEAN g) (SOC_STD g) n_assets r)
    as [[_ E0]|(_ & Hn & zs & r0 & Lz & E0)]; rewrite E0 in R;
    [congruence|].
  cbv zeta in R.
  destruct (for_range _ _ _ r0) as [[[[socs c] h] r1]|e] eqn:E;
    [|congruence].
  destruct R as (_ & L & R); rewrite R in Eres.
  destruct (py_div (inject_Z c) (inject_Z (N_SLOTS_YEAR g))) as [rate|e];
    [|discriminate].
  injection Eres as <- _; cbn [history].
  split; [exact Hn|]; split; [exact L|].
  exists socs, c.
  eapply tracking_loop_invariant; [exact E|].
  assert (L0 : length (np_clip_min
                         (map (fun z => SOC_MEAN g + SOC_STD g * z) zs) 0)
               = Z.to_nat n_assets)
    by (unfold np_clip_min; now rewrite !length_map).
  unfold year_invariant, initial_history; cbn [soc_history fcr_power_history
    success_history available_history soc_ok_history length].
  split; [exact L0|].
  split; [constructor; [|constructor]; split;
          [exact L0 | apply np_clip_min_lower]|].
  repeat split; constructor.
Qed.

End TrackedYear.

(** X8. The charge trajectory of a tracked year has one row more than the
    year has slots, each row with one charge per asset; the four other
    histories have one entry per slot. *)
Theorem year_histories_shape {G : Type} `{RandomState G} (g : Globals)
  (n_assets : Z) (r : G) :
  match simulate_year_with_tracking g n_assets r with
  | Ok (res, _) =>
      length (soc_history res) = S (Z.to_nat (N_SLOTS_YEAR g)) /\
      Forall (fun row => length row = Z.to_nat n_assets) (soc_history res) /\
      length (fcr_power_history res) = Z.to_nat (N_SLOTS_YEAR g) /\
      length (success_history res) = Z.to_nat (N_SLOTS_YEAR g) /\
      length (available_history res) = Z.to_nat (N_SLOTS_YEAR g) /\
      length (soc_ok_history res) = Z.to_nat (N_SLOTS_YEAR g)
  | Raise _ => True
  end.
Proof.
  destruct (simulate_year_with_tracking g n_assets r) as [[res r']|e] eqn:E;
    [|exact I].
  destruct (tracking_year_invariant g _ _ _ _ E)
    as (_ & L & socs & c & _ & I2 & I3 & I4 & I5 & I6 & _).
  repeat split; try congruence.
  eapply Forall_impl; [|exact I2]; now intros row [Lr _].
Qed.

(** X9. No charge recorded over a tracked year is negative. *)
Theorem year_charges_nonneg {G : Type} `{RandomState G} (g : Globals)
  (n_assets : Z) (r : G) :
  match simulate_year_with_tracking g n_assets r with
  | Ok (res, _) => Forall (Forall nonneg) (soc_history res)
  | Raise _ => True
  end.
Proof.
  destruct (simulate_year_with_tracking g n_assets r) as [[res r']|e] eqn:E;
    [|exact I].
  destruct (tracking_year_invariant g _ _ _ _ E)
    as (_ & _ & socs & c & _ & I2 & _).
  eapply Forall_impl; [|exact I2]; now intros row [_ Fr].
Qed.

(** X10. The recorded histories agree: a slot is flagged successful exactly
    when the power recorded for it reaches [REQUIRED_POWER] (the zones
    that [plot_power_delivery] fills in green). *)
Theorem year_flags_match_power {G : Type} `{RandomState G} (g : Globals)
  (n_assets : Z) (r : G) :
  match simulate_year_with_tracking g n_assets r with
  | Ok (res, _) =>
      Forall2 (fun (b : bool) p => b = true <-> REQUIRED_POWER g <= p)
        (success_history res) (fcr_power_history res)
  | Raise _ => True
  end.
Proof.
  destruct (simulate_year_with_tracking g n_assets r) as [[res r']|e] eqn:E;
    [|exact I].
  now destruct (tracking_year_invariant g _ _ _ _ E)
    as (_ & _ & socs & c & _ & _ & _ & _ & _ & _ & I7 & _).
Qed.

(** X11. The counts recorded for a slot, of available assets and of assets
    with enough charge, lie between 0 and the size of the portfolio. *)
Theorem year_counts_within_portfolio {G : Type} `{RandomState G}
  (g : Globals) (n_assets : Z) (r : G) :
  match simulate_year_with_tracking g n_assets r with
  | Ok (res, _) =>
      Forall (fun k => 0 <= k <= n_assets)%Z (available_history res) /\
      Forall (fun k => 0 <= k <= n_assets)%Z (soc_ok_history res)
  | Raise _ => True
  end.
Proof.
  destruct (simulate_year_with_tracking g n_assets r) as [[res r']|e] eqn:E;
    [|exact I].
  destruct (tracking_year_invariant g _ _ _ _ E)
    as (Hn & _ & socs & c & _ & _ & _ & _ & _ & _ & _ & I8 & I9).
  rewrite Z2Nat.id in I8, I9 by exact Hn; now split.
Qed.

(** X12. A negative portfolio size is refused by both year simulators, with
    the [ValueError] of the draw of the initial charges. *)
Theorem year_negative_size {G : Type} `{RandomState G} (g : Globals)
  (n_assets : Z) (r : G) :
  (n_assets < 0)%Z ->
  simulate_year g n_assets r = Raise ValueError /\
  simulate_year_with_tracking g n_assets r = Raise ValueError.
Proof.
  intros Hn.
  assert (E : simulate_year_with_tracking g n_assets r = Raise ValueError).
  { pose proof (simulate_year_with_tracking_run g n_assets r) as R.
    destruct (np_random_normal_run (SOC_MEAN g) (SOC_STD g) n_assets r)
      as [[_ E0]|(_ & Hpos & _)]; [|lia].
    now rewrite E0 in R. }
  split; [|exact E]; now rewrite simulate_year_run, E.
Qed.

Lemma year_negative_size_witness :
  simulate_year vpp6 (-1) always_available = Raise ValueError /\
  simulate_year_with_tracking vpp6 (-1) always_available = Raise ValueError.
Proof.
  apply (year_negative_size vpp6 (-1) always_available); reflexivity.
Defined.

(** ** The verdict of a year and the plotted final rate *)

Lemma Qle_div_iff a b c : 0 < c -> (a <= b / c <-> a * c <= b).
Proof.
  intros Hc; split; intros L.
  - assert (E : b == b / c * c) by (field; lra).
    rewrite E; apply Qmult_le_compat_r; lra.
  - now apply Qle_shift_div_l.
Qed.

(** X13. [simulate_year] returns [True] exactly when the number of successful
    slots reaches [MIN_SUCCESS_RATE] times the number of slots of the
    year. *)
Theorem simulate_year_threshold {G : Type} `{RandomState G} (g : Globals)
  (n_assets : Z) (r : G) :
  (0 < N_SLOTS_YEAR g)%Z ->
  match simulate_year_with_tracking g n_assets r with
  | Ok (res, r') =>
      exists verdict,
        simulate_year g n_assets r = Ok (verdict, r') /\
        (verdict = true <->
         MIN_SUCCESS_RATE g * inject_Z (N_SLOTS_YEAR g)
         <= inject_Z (np_count (success_history res)))
  | Raise e => simulate_year g n_assets r = Raise e
  end.
Proof.
  intros Npos; rewrite simulate_year_run.
  destruct (simulate_year_with_tracking g n_assets r) as [[res r']|e] eqn:E;
    [|reflexivity].
  pose proof (simulate_year_with_tracking_run g n_assets r) as R.
  destruct (np_random_normal (SOC_MEAN g) (SOC_STD g) n_assets r)
    as [[raw r0]|e] eqn:E0; [|congruence].
  destruct (tracking_year_flags g n_assets r raw r0 res r' E0 E)
    as (_ & _ & Hrate & _).
  eexists; split; [reflexivity|].
  rewrite Qle_bool_iff, Hrate; unfold success_fraction.
  apply Qle_div_iff; now rewrite <- (Zlt_Qlt 0).
Qed.

Lemma simulate_year_threshold_witness :
  match simulate_year_with_tracking vpp6 100 (available_until 400) with
  | Ok (res, r') =>
      exists verdict,
        simulate_year vpp6 100 (available_until 400) = Ok (verdict, r') /\
        (verdict = true <->
         MIN_SUCCESS_RATE vpp6 * inject_Z (N_SLOTS_YEAR vpp6)
         <= inject_Z (np_count (success_history res)))
  | Raise e => simulate_year vpp6 100 (available_until 400) = Raise e
  end.
Proof.
  apply (simulate_year_threshold vpp6 100 (available_until 400)); reflexivity.
Defined.

Lemma np_count_cons b l :
  np_count (b :: l) = ((if b then 1 else 0) + np_count l)%Z.
Proof. unfold np_count; destruct b; simpl filter; simpl length; lia. Qed.

Lemma py_last_cumul acc start l :
  l <> [] ->
  py_last (zip_with (fun c k => inject_Z c / inject_Z k)
             (np_cumsum acc l) (np_arange start (length l)))
  = Ok (inject_Z (acc + np_count l)
        / inject_Z (Z.of_nat (start + length l - 1))).
Proof.
  revert acc start; induction l as [|b l IH]; intros acc start Hl;
    [contradiction|].
  destruct l as [|b' l'].
  - cbn; rewrite np_count_cons.
    replace (start + 1 - 1)%nat with start by lia.
    do 3 f_equal; unfold np_count; simpl; lia.
  - specialize (IH (acc + if b then 1 else 0)%Z (S start)).
    rewrite (np_count_cons b), Z.add_assoc.
    replace (start + length (b :: b' :: l') - 1)%nat
      with (S start + length (b' :: l') - 1)%nat by (simpl; lia).
    rewrite <- IH by discriminate; reflexivity.
Qed.

(** X14. The final rate written by [plot_power_delivery] is the [success_rate]
    of the tracked year, in percent, and it is written in green exactly
    when [simulate_year] returns [True] on the same generator. *)
Theorem final_rate_is_success_rate {G : Type} `{RandomState G}
  (g : Globals) (n_assets : Z) (r : G) :
  (0 < N_SLOTS_YEAR g)%Z ->
  match simulate_year_with_tracking g n_assets r with
  | Ok (res, r') =>
      exists rate green,
        final_rate (success_history res) = Ok rate /\
        rate == success_rate res * 100 /\
        final_rate_green g (success_history res) = Ok green /\
        simulate_year g n_assets r = Ok (green, r')
  | Raise _ => True
  end.
Proof.
  intros Npos.
  destruct (simulate_year_with_tracking g n_assets r) as [[res r']|e] eqn:E;
    [|exact I].
  pose proof (simulate_year_with_tracking_run g n_assets r) as R.
  destruct (np_random_normal (SOC_MEAN g) (SOC_STD g) n_assets r)
    as [[raw r0]|e] eqn:E0; [|congruence].
  destruct (tracking_year_flags g n_assets r raw r0 res r' E0 E)
    as (L & _ & Hrate & _).
  assert (Hl : success_history res <> [])
    by (intros Z; rewrite Z in L; simpl in L; lia).
  assert (Ef : final_rate (success_history res)
               = Ok (success_fraction g (success_history res) * 100)).
  { unfold final_rate, cumul_success.
    rewrite py_last_cumul by exact Hl; cbn [result_bind].
    unfold success_fraction; do 3 f_equal; rewrite L; f_equal; lia. }
  exists (success_fraction g (success_history res) * 100),
    (Qle_bool (MIN_SUCCESS_RATE g) (success_rate res)).
  split; [exact Ef|]; split; [now rewrite Hrate|]; split.
  - unfold final_rate_green; rewrite Ef; cbn [result_bind]; f_equal.
    apply eq_true_iff_eq; rewrite !Qle_bool_iff, Hrate; split; intros Le; lra.
  - now rewrite simulate_year_run, E.
Qed.

Lemma final_rate_is_success_rate_witness :
  match simulate_year_with_tracking vpp6 100 (available_until 400) with
  | Ok (res, r') =>
      exists rate green,
        final_rate (success_history res) = Ok rate /\
        rate == success_rate res * 100 /\
        final_rate_green vpp6 (success_history res) = Ok green /\
        simulate_year vpp6 100 (available_until 400) = Ok (green, r')
  | Raise _ => True
  end.
Proof.
  apply (final_rate_is_success_rate vpp6 100 (available_until 400));
    reflexivity.
Defined.

(** ** The estimator and the search, further *)

Section EstimatorFacts.

Context {G : Type} `{RandomState G}.
Variable g : Globals.

(** The trial loop counts at most one success per trial. *)
Lemma trials_loop_count n_assets k c (r : G) c' r' :
  for_range k
    (fun successes : Z =>
       ok <- simulate_year g n_assets ;;
       ret (if ok : bool then (successes + 1)%Z else successes))
    c r = Ok (c', r') ->
  (c <= c' <= c + Z.of_nat k)%Z.
Proof.
  revert c r; induction k as [|k IH]; intros c r; cbn [for_range].
  - unfold ret; intros [= <- _]; lia.
  - unfold bind at 1 2.
    destruct (simulate_year g n_assets r) as [[b r1]|e]; [|discriminate].
    unfold ret at 1; intros E; apply IH in E; destruct b; lia.
Qed.

(** [diagnostic_slot] raises nothing but [ValueError], and raises it for
    every size that is not positive. *)
Lemma diagnostic_slot_raises n_assets (r : G) :
  match diagnostic_slot g n_assets r with
  | Ok _ => (0 < n_assets)%Z
  | Raise e => e = ValueError
  end.
Proof.
  unfold diagnostic_slot.
  destruct (np_random_normal_run (SOC_MEAN g) (SOC_STD g) n_assets r)
    as [[_ E0]|(_ & Hn & zs & r0 & Lz & E0)];
    [now rewrite (bind_Raise _ _ _ _ E0)|].
  rewrite (bind_Ok _ _ _ _ _ E0); cbv zeta.
  destruct (np_random_normal_run (POWER_MEAN g) (POWER_STD g) n_assets r0)
    as [[_ E1]|(_ & _ & ps & r1 & _ & E1)];
    [now rewrite (bind_Raise _ _ _ _ E1)|].
  rewrite (bind_Ok _ _ _ _ _ E1); cbv zeta; rewrite bind_lift.
  destruct zs as [|z zs]; [reflexivity|]; simpl in Lz.
  cbn [map np_clip_min]; unfold np_random_random.
  destruct (Z.ltb_spec n_assets 0) as [|_]; [lia|].
  destruct (draws_total random_sample (Z.to_nat n_assets) r1)
    as (us & r2 & Eu & _).
  rewrite (bind_Ok _ _ _ _ _ Eu); unfold ret; lia.
Qed.

End EstimatorFacts.

(** X15. Whenever the estimator returns, what it returns is a probability, a
    value of [[0, 1]]; with zero trials it never returns: the final
    division raises [ZeroDivisionError]. *)
Theorem estimate_is_probability {G : Type} `{RandomState G} (g : Globals)
  (n_assets n_trials : Z) (r : G) :
  match annual_success_probability g n_assets n_trials r with
  | Ok (prob, _) => 0 <= prob <= 1 /\ n_trials <> 0%Z
  | Raise e => n_trials = 0%Z -> e = ZeroDivisionError
  end.
Proof.
  unfold annual_success_probability.
  match goal with
  | |- context [bind (for_range ?k ?body ?c) _ r] =>
      destruct (for_range k body c r) as [[c' r']|e] eqn:E
  end.
  - rewrite (bind_Ok _ _ _ _ _ E); unfold lift.
    apply trials_loop_count in E.
    destruct (py_div (inject_Z c') (inject_Z n_trials)) as [q|e] eqn:D.
    + apply py_div_Ok in D as (N0 & ->).
      assert (Nz : n_trials <> 0%Z) by (intros Z; apply N0; now rewrite Z).
      split; [|exact Nz].
      destruct (Z.lt_trichotomy n_trials 0) as [Neg|[Z0|Pos]];
        [|contradiction|].
      * replace c' with 0%Z by lia.
        unfold Qdiv; rewrite Qmult_0_l; split; [apply Qle_refl|discriminate].
      * assert (P : 0 < inject_Z n_trials) by (now rewrite <- (Zlt_Qlt 0)).
        split.
        -- apply Qle_shift_div_l; [exact P|].
           rewrite Qmult_0_l; rewrite <- (Zle_Qle 0); lia.
        -- apply Qle_shift_div_r; [exact P|].
           rewrite Qmult_1_l; rewrite <- Zle_Qle; lia.
    + unfold py_div in D.
      destruct (Qeq_bool (inject_Z n_trials) 0); now inversion D.
  - rewrite (bind_Raise _ _ _ _ E); intros ->.
    cbn in E; discriminate.
Qed.

(** X16. The search refuses a first size that is not positive and a step of
    zero, with a [ValueError] in both cases. *)
Theorem search_rejects_invalid {G : Type} `{RandomState G} (g : Globals)
  (confidence_target : Q) (n_min n_max step : Z) (r : G) :
  (n_min <= 0)%Z \/ step = 0%Z ->
  find_min_assets_annual g confidence_target n_min n_max step r
  = Raise ValueError.
Proof.
  intros Hbad; unfold find_min_assets_annual.
  pose proof (diagnostic_slot_raises g n_min r) as D.
  destruct (diagnostic_slot g n_min r) as [[[] r0]|e] eqn:E.
  - rewrite (bind_Ok _ _ _ _ _ E), bind_lift.
    destruct Hbad as [Hn| ->]; [lia|]; reflexivity.
  - rewrite (bind_Raise _ _ _ _ E); now subst e.
Qed.

Lemma search_rejects_invalid_witness :
  find_min_assets_annual vpp6 (95 # 100) 100 400 0 always_available
  = Raise ValueError.
Proof.
  apply (search_rejects_invalid vpp6 (95 # 100) 100 400 0 always_available).
  right; reflexivity.
Defined.

(** X17. With an upper bound below the first size the search estimates
    nothing: it returns [None] and leaves the generator as the diagnostic
    left it. *)
Theorem search_empty_range {G : Type} `{RandomState G} (g : Globals)
  (confidence_target : Q) (n_min n_max step : Z) (r r0 : G) :
  (0 < step)%Z ->
  (n_max < n_min)%Z ->
  diagnostic_slot g n_min r = Ok (tt, r0) ->
  find_min_assets_annual g confidence_target n_min n_max step r
  = Ok (None, r0).
Proof.
  intros Hs Hlt E; unfold find_min_assets_annual.
  rewrite (bind_Ok _ _ _ _ _ E), bind_lift; unfold py_range.
  destruct (Z.eqb_spec step 0) as [|_]; [lia|].
  destruct (Z.ltb_spec 0 step) as [_|]; [|lia].
  destruct (Z.ltb_spec n_min (n_max + 1)) as [|_]; [lia|].
  reflexivity.
Qed.

Lemma search_empty_range_witness :
  find_min_assets_annual vpp6 (95 # 100) 1 0 1 always_available
  = Ok (None, advance (advance (advance always_available))).
Proof.
  apply (search_empty_range vpp6 (95 # 100) 1 0 1 always_available);
    reflexivity.
Defined.

(** * binary64 arithmetic *)

Set Warnings "-inexact-float".

(** ** Rounding is monotone *)















(** On the constants of the source and on the sums below, [round_binary64]
    returns what the floating-point unit returns. *)
Example round_binary64_agrees_with_hardware :
  Q_of_float ((0.002 * 0.70 + 0.0005) / (1 - 0.70))%float
  == SOC_RECHARGE_RATE vpp6_binary64 /\
  Q_of_float ((0.002 * 0.70 + 0.0005) / (1 - 0.70) * 600)%float
  == recharge_binary64 vpp6_binary64 /\
  Q_of_float (- (0.002) * 600)%float == discharge_binary64 vpp6_binary64 /\
  Q_of_float (1e17 + (0.002 * 0.70 + 0.0005) / (1 - 0.70) * 600)%float
  == round_binary64 (inject_Z (10 ^ 17) + recharge_binary64 vpp6_binary64) /\
  Q_of_float (1e17 + - (0.002) * 600)%float
  == round_binary64 (inject_Z (10 ^ 17) + discharge_binary64 vpp6_binary64) /\
  Q_of_float (600 + - (0.002) * 600)%float
  == round_binary64 (600 + discharge_binary64 vpp6_binary64).
Proof. repeat split; vm_compute; reflexivity. Qed.

(** ** The update rule in binary64 *)




(** Without rounding, it is [update_soc]. *)
Lemma update_soc_rounded_exact g socs powers mask :
  update_soc_rounded (fun x => x) g socs powers mask
  = update_soc g socs powers mask.
Proof. reflexivity. Qed.



(** At ordinary charges the change is strict: from 600 kWh a used asset
    ends strictly lower and an unused one strictly higher. *)
Example update_soc_binary64_ordinary_charge :
  exists o_used o_idle,
    update_soc_binary64 vpp6_binary64 [600; 600] [100; 100] [true; false]
    = Ok [o_used; o_idle] /\
    o_used < 600 /\ 600 < o_idle.
Proof. do 2 eexists; split; [vm_compute; reflexivity|]; split; reflexivity. Qed.

